(** * Ledger loading, spending aggregates and the ledger consistency engine

    A shallow embedding of [scripts/generate_graphs.py] (and of its
    module-level twin under [data/mock_dataset_2026/.../assets]) together
    with the ledger consistency engine that the specification describes.

    Conventions.
    - A pandas [float64] cell is either [NaN] or a finite value; finite
      values are kept as exact rationals, so rounding and infinities are
      outside the model.
    - A ledger file is given by the rows [pd.read_csv] produces for a file
      with the seven named columns; each cell is absent/blank or carries
      its text.  Files without these columns are outside the model.
    - [pd.to_numeric] and [float] are modelled by one reader of decimal
      literals; the date cell is given by what [pd.to_datetime] makes of
      it.
    - A DataFrame is the list of its rows in file order; a Series produced
      by [groupby(...).sum()] is an association list from key to value in
      index order; [sort_values] is a stable sort (pandas leaves the order
      of ties open).
    - Process-level effects (stdout, stderr, the directory tree, exiting)
      are threaded through a small state-and-outcome monad.  A run of
      [main] is followed up to the line that joins the account names; what
      pandas makes of the type of that column and what matplotlib does while
      drawing are not modelled, and a run that gets this far ends in the
      outcome [Continues], about which nothing is stated.  The data each
      chart is drawn from is modelled in full. *)

From Stdlib Require Import List String Ascii Bool Arith ZArith QArith Qabs Lia Lqa.
From Stdlib Require Import Permutation Sorted.
Import ListNotations.

Local Open Scope string_scope.
Local Open Scope list_scope.

(* ================================================================== *)
(** ** Numbers *)

Module Float.

(** A float64 cell: missing ([NaN]) or a finite amount. *)
Inductive float64 : Type :=
| NaN
| Fin (q : Q).

Definition isna (x : float64) : bool :=
  match x with NaN => true | Fin _ => false end.

(** [Series.fillna(v)] on one cell. *)
Definition fillna (v : Q) (x : float64) : float64 :=
  match x with NaN => Fin v | Fin _ => x end.

(** Strict boolean comparison on rationals. *)
Definition Qltb (x y : Q) : bool := negb (Qle_bool y x).

(** [x > 0] elementwise; any comparison with NaN is False. *)
Definition gt0 (x : float64) : bool :=
  match x with NaN => false | Fin q => Qltb 0 q end.

(** [Series.sum()] with the default [skipna=True]: missing cells are
    skipped and an empty sum is [0.0]. *)
Fixpoint qsum (l : list float64) : Q :=
  match l with
  | [] => 0
  | NaN :: t => qsum t
  | Fin q :: t => q + qsum t
  end.

Definition sum (l : list float64) : float64 := Fin (qsum l).

End Float.
Import Float.

(* ================================================================== *)
(** ** Text of a numeric cell *)

Module Text.

Definition is_digit (c : ascii) : bool :=
  (48 <=? nat_of_ascii c)%nat && (nat_of_ascii c <=? 57)%nat.

Definition digit_val (c : ascii) : Z := Z.of_nat (nat_of_ascii c - 48).

(** Python's [str.isspace] on the ASCII range: space, \t \n \v \f \r
    and the separators 28..31. *)
Definition is_space (c : ascii) : bool :=
  let n := nat_of_ascii c in
  (n =? 32)%nat || ((9 <=? n)%nat && (n <=? 13)%nat)
  || ((28 <=? n)%nat && (n <=? 31)%nat).

Fixpoint lstrip (s : string) : string :=
  match s with
  | String c t => if is_space c then lstrip t else s
  | EmptyString => EmptyString
  end.

Fixpoint rstrip (s : string) : string :=
  match s with
  | String c t =>
      match rstrip t with
      | EmptyString => if is_space c then EmptyString else String c EmptyString
      | r => String c r
      end
  | EmptyString => EmptyString
  end.

(** [str.strip()] *)
Definition strip (s : string) : string := rstrip (lstrip s).

(** [s.replace(c, "")] for a one-character pattern. *)
Fixpoint remove_char (c : ascii) (s : string) : string :=
  match s with
  | String a t =>
      if Ascii.eqb a c then remove_char c t else String a (remove_char c t)
  | EmptyString => EmptyString
  end.

Fixpoint contains_char (c : ascii) (s : string) : bool :=
  match s with
  | String a t => Ascii.eqb a c || contains_char c t
  | EmptyString => false
  end.

(** Longest prefix whose characters satisfy [p], and the rest. *)
Fixpoint span (p : ascii -> bool) (s : string) : string * string :=
  match s with
  | String c t =>
      if p c then let (a, b) := span p t in (String c a, b)
      else (EmptyString, s)
  | EmptyString => (EmptyString, EmptyString)
  end.

(** Value of a digit string read in base 10, continuing from [acc]. *)
Fixpoint digits_value (acc : Z) (s : string) : Z :=
  match s with
  | String c t => digits_value (10 * acc + digit_val c) t
  | EmptyString => acc
  end.

Definition is_empty (s : string) : bool :=
  match s with EmptyString => true | _ => false end.

(** Optional sign: its factor and the remaining text. *)
Definition take_sign (s : string) : Z * string :=
  match s with
  | String "-" t => (-1, t)
  | String "+" t => (1, t)
  | _ => (1, s)
  end%Z.

(** Optional exponent part [[eE][+-]?[0-9]+] reaching the end of the
    text: [Some e] when the remainder is empty ([e = 0]) or a
    well-formed exponent, [None] otherwise. *)
Definition take_exponent (s : string) : option Z :=
  match s with
  | EmptyString => Some 0%Z
  | String c t =>
      if Ascii.eqb c "e" || Ascii.eqb c "E" then
        let (sg, t1) := take_sign t in
        let (ds, rest) := span is_digit t1 in
        if negb (is_empty ds) && is_empty rest
        then Some (sg * digits_value 0 ds)%Z
        else None
      else None
  end.

(** [m * 10^e] as an exact rational. *)
Definition scale10 (m e : Z) : Q :=
  if (0 <=? e)%Z then inject_Z (m * 10 ^ e)
  else Qmake m (Z.to_pos (10 ^ (- e))).

(** Optional fraction part [\.[0-9]*]: its digits and the remaining
    text. *)
Definition take_fraction (s : string) : string * string :=
  match s with
  | String "." t => span is_digit t
  | _ => (EmptyString, s)
  end.

(** Decimal literal to number, as [float(s)] and [pd.to_numeric] read a
    cell: surrounding white space is ignored, then an optional sign, a
    mantissa of digits with an optional point (at least one digit), and an
    optional exponent.  Anything else is not a number ([None]).  The
    special spellings of infinity are outside the model. *)
Definition float_of_string (s : string) : option Q :=
  let (sg, s1) := take_sign (strip s) in
  let (ip, r1) := span is_digit s1 in
  let (fp, r2) := take_fraction r1 in
  if is_empty ip && is_empty fp then None
  else
    match take_exponent r2 with
    | Some e =>
        Some (scale10 (sg * digits_value (digits_value 0 ip) fp)
                      (e - Z.of_nat (String.length fp)))
    | None => None
    end.

(** The optional group [(\.[0-9]+)?] up to the end of the text. *)
Definition fraction_re (r : string) : bool :=
  match r with
  | EmptyString => true
  | String "." t =>
      let (fp, r2) := span is_digit t in negb (is_empty fp) && is_empty r2
  | _ => false
  end.

(** The pattern [[0-9]+(\.[0-9]+)?] (whole string). *)
Definition plain_amount_re (s : string) : bool :=
  let (ip, r) := span is_digit s in
  negb (is_empty ip) && fraction_re r.

Definition is_digit_or_comma (c : ascii) : bool :=
  is_digit c || Ascii.eqb c ",".

(** The pattern [[$]?[0-9,]+(\.[0-9]+)?] (whole string). *)
Definition amount_re (s : string) : bool :=
  let s1 := match s with String "$" t => t | _ => s end in
  let (ip, r) := span is_digit_or_comma s1 in
  negb (is_empty ip) && fraction_re r.

(** [s.replace(",", "").replace("$", "")] *)
Definition strip_currency (s : string) : string :=
  remove_char "$" (remove_char "," s).

(** The text holds a thousands separator or a currency symbol. *)
Definition has_separator (s : string) : bool :=
  contains_char "$" s || contains_char "," s.

(** Blank: nothing but white space. *)
Definition is_blank (s : string) : bool := is_empty (strip s).

Fixpoint all_chars (p : ascii -> bool) (s : string) : bool :=
  match s with
  | String c t => p c && all_chars p t
  | EmptyString => true
  end.

(** The characters a decimal literal is made of. *)
Definition float_char (c : ascii) : bool :=
  is_digit c || is_space c || Ascii.eqb c "." || Ascii.eqb c "+"
  || Ascii.eqb c "-" || Ascii.eqb c "e" || Ascii.eqb c "E".

(** The value of a string of the form [[0-9]+(\.[0-9]+)?], read off its
    digits: integer and fraction digits as one number over the matching
    power of ten. *)
Definition decimal_value (s : string) : Q :=
  let (ip, r) := span is_digit s in
  let fp := fst (take_fraction r) in
  inject_Z (digits_value 0 (ip ++ fp))
  / inject_Z (10 ^ Z.of_nat (String.length fp)).

End Text.
Import Text.

(* ================================================================== *)
(** ** Generic list helpers: stable sort, head and tail of a Series *)

Section Sorting.
Context {A : Type} (leb : A -> A -> bool).

Fixpoint insert (x : A) (l : list A) : list A :=
  match l with
  | [] => [x]
  | y :: t => if leb x y then x :: y :: t else y :: insert x t
  end.

(** Stable insertion sort: of two elements that compare equal, the one
    that came first stays first. *)
Fixpoint sort (l : list A) : list A :=
  match l with
  | [] => []
  | x :: t => insert x (sort t)
  end.
End Sorting.

(** [Series.head(n)] and [Series.tail(n)] for [n >= 0]. *)
Definition head {A : Type} (n : nat) (l : list A) : list A := firstn n l.
Definition tail {A : Type} (n : nat) (l : list A) : list A :=
  skipn (List.length l - n) l.

(** Keys of a [groupby]: decidable equality and a strict order. *)
Class Key (K : Type) := {
  key_eqb : K -> K -> bool;
  key_ltb : K -> K -> bool;
  key_eqb_eq : forall a b, key_eqb a b = true <-> a = b
}.

#[export] Instance string_Key : Key string := {
  key_eqb := String.eqb;
  key_ltb := String.ltb;
  key_eqb_eq := String.eqb_eq
}.

#[export] Instance Z_Key : Key Z := {
  key_eqb := Z.eqb;
  key_ltb := Z.ltb;
  key_eqb_eq := Z.eqb_eq
}.

(* ================================================================== *)
(** ** The transaction frame *)

Module Frame.

(** A timestamp: days since 1970-01-01 and the time within the day. *)
Record timestamp : Type := {
  ordinal : Z;
  nanos : Z
}.

(** What [pd.to_datetime] makes of the text of one date cell: a missing
    value for a blank cell, a timestamp, or a parse failure. *)
Inductive date_cell : Type :=
| DateBlank
| DateAt (t : timestamp)
| DateBad (text : string).

(** One row as [pd.read_csv] hands it over.  A cell is [None] when it is
    blank or absent (pandas reads it as NaN) and otherwise carries its
    text. *)
Record raw_row : Type := {
  raw_date : date_cell;
  raw_description : option string;
  raw_category : option string;
  raw_deposit : option string;
  raw_withdrawal : option string;
  raw_balance : option string;
  raw_account_name : option string
}.

(** One row of the loaded DataFrame.  [None] in a key column is NaN or
    NaT. *)
Record txn : Type := {
  date : option timestamp;
  description : option string;
  category : option string;
  deposit : float64;
  withdrawal : float64;
  balance : float64;
  account_name : option string
}.

(** [pd.to_numeric(cell, errors="coerce")] on one cell as [pd.read_csv]
    delivered it: what does not read as a number becomes NaN.  Outside
    the model, because pandas reads them differently from a decimal
    literal: the spellings of infinity and NaN, a column that holds only
    truth values, the control characters 28 to 31 around a number (white
    space to [float], not to pandas), and amounts beyond the range of a
    float. *)
Definition to_numeric_coerce (c : option string) : float64 :=
  match c with
  | None => NaN
  | Some s =>
      match float_of_string s with
      | Some q => Fin q
      | None => NaN
      end
  end.

(** [pd.to_datetime] with the default [errors="raise"]. *)
Definition to_datetime (c : date_cell) : option (option timestamp) :=
  match c with
  | DateBlank => Some None
  | DateAt t => Some (Some t)
  | DateBad _ => None
  end.

(** The column assignments of [load_transactions], for one row whose
    date has been converted. *)
Definition load_row (d : option timestamp) (r : raw_row) : txn := {|
  date := d;
  description := raw_description r;
  category := raw_category r;
  deposit := fillna 0 (to_numeric_coerce (raw_deposit r));
  withdrawal := fillna 0 (to_numeric_coerce (raw_withdrawal r));
  balance := to_numeric_coerce (raw_balance r);
  account_name := raw_account_name r
|}.

(** The conversions applied to a whole frame; [None] when
    [pd.to_datetime] raises on some cell. *)
Fixpoint load_frame (raw : list raw_row) : option (list txn) :=
  match raw with
  | [] => Some []
  | r :: t =>
      match to_datetime (raw_date r), load_frame t with
      | Some d, Some rows => Some (load_row d r :: rows)
      | _, _ => None
      end
  end.

(** *** Grouping *)

Section GroupBy.
Context {K : Type} `{Key K}.

(** Insertion into a strictly increasing list of keys. *)
Fixpoint insert_key (k : K) (l : list K) : list K :=
  match l with
  | [] => [k]
  | h :: t =>
      if key_eqb k h then l
      else if key_ltb k h then k :: l
      else h :: insert_key k t
  end.

(** The index of a grouped result: the distinct keys in increasing
    order; rows whose key is missing belong to no group. *)
Fixpoint group_keys (ks : list (option K)) : list K :=
  match ks with
  | [] => []
  | Some k :: t => insert_key k (group_keys t)
  | None :: t => group_keys t
  end.

Definition has_key (key : txn -> option K) (k : K) (r : txn) : bool :=
  match key r with
  | Some k' => key_eqb k' k
  | None => false
  end.

(** [df.groupby(key)[col].sum()] *)
Definition groupby_sum (key : txn -> option K) (col : txn -> float64)
    (df : list txn) : list (K * float64) :=
  map (fun k => (k, sum (map col (filter (has_key key k) df))))
      (group_keys (map key df)).

(** [df.groupby(key).size()] *)
Definition groupby_size (key : txn -> option K) (df : list txn)
    : list (K * nat) :=
  map (fun k => (k, List.length (filter (has_key key k) df)))
      (group_keys (map key df)).
End GroupBy.

(** Order of two Series entries by value. *)
Definition value_leb {K : Type} (a b : K * float64) : bool :=
  match snd a, snd b with
  | Fin x, Fin y => Qle_bool x y
  | Fin _, NaN => true
  | NaN, Fin _ => false
  | NaN, NaN => true
  end.

Definition value_geb {K : Type} (a b : K * float64) : bool :=
  match snd a, snd b with
  | Fin x, Fin y => Qle_bool y x
  | Fin _, NaN => true
  | NaN, Fin _ => false
  | NaN, NaN => true
  end.

(** [Series.sort_values(ascending=...)]; missing values go last. *)
Definition sort_values {K : Type} (ascending : bool)
    (s : list (K * float64)) : list (K * float64) :=
  if ascending then sort value_leb s else sort value_geb s.

(** [Series.cumsum()] *)
Fixpoint cumsum_from {K : Type} (acc : Q) (s : list (K * float64))
    : list (K * float64) :=
  match s with
  | [] => []
  | (k, NaN) :: t => (k, NaN) :: cumsum_from acc t
  | (k, Fin q) :: t => (k, Fin (acc + q)) :: cumsum_from (acc + q) t
  end.

Definition cumsum {K : Type} (s : list (K * float64)) :=
  cumsum_from 0 s.

(** *** Columns derived from the date *)

Definition date_only (r : txn) : option Z :=
  match date r with
  | Some t => Some (ordinal t)
  | None => None
  end.

Definition weekday_order : list string :=
  ["Monday"; "Tuesday"; "Wednesday"; "Thursday"; "Friday"; "Saturday";
   "Sunday"].

(** [Timestamp.day_name()]: 1970-01-01 was a Thursday. *)
Definition day_name (t : timestamp) : string :=
  nth (Z.to_nat ((ordinal t + 3) mod 7)) weekday_order "Monday".

Definition weekday (r : txn) : option string :=
  match date r with
  | Some t => Some (day_name t)
  | None => None
  end.

(** [s.reindex(order).fillna(0)] *)
Fixpoint lookup_total (k : string) (s : list (string * float64))
    : float64 :=
  match s with
  | [] => NaN
  | (k', v) :: t => if String.eqb k' k then v else lookup_total k t
  end.

Definition reindex_fill0 (order : list string)
    (s : list (string * float64)) : list (string * float64) :=
  map (fun k => (k, fillna 0 (lookup_total k s))) order.

(** *** The spending aggregates *)

(** [df[df["withdrawal"] > 0].copy()] *)
Definition spending_df (df : list txn) : list txn :=
  filter (fun r => gt0 (withdrawal r)) df.

(** The "top 8, rest as Other" step shared by both scripts. *)
Definition top_with_other (category_totals : list (string * float64))
    : list (string * float64) :=
  if (8 <? List.length category_totals)%nat then
    let top_categories := head 8 category_totals in
    let other_total :=
      sum (map snd (tail (List.length category_totals - 8) category_totals)) in
    if gt0 other_total
    then top_categories ++ [("Other", other_total)]
    else top_categories
  else category_totals.

End Frame.

(* ================================================================== *)
(** ** The process: directory tree, output streams, exit *)

Module Proc.
Import Frame.

Inductive exn : Type :=
| ValueError
| TypeError
| NotADirectoryError
| IsADirectoryError
| FileExistsError.

(** How a call ends: it returns, the interpreter exits through
    [sys.exit(code)], an exception escapes, or the run goes on into code
    that is not modelled ([Continues]: it may still return, exit or
    raise). *)
Inductive outcome (A : Type) : Type :=
| Return (a : A)
| SysExit (code : Z)
| Raise (e : exn)
| Continues.
Arguments Return {A} a.
Arguments SysExit {A} code.
Arguments Raise {A} e.
Arguments Continues {A}.

(** A line written to stdout, kept structured. *)
Inductive report : Type :=
| GeneratingFrom (directory : string)
| OutputDirectory (assets_dir : string)
| Loaded (n : nat)
| DateRange (lo hi : timestamp).

Record process : Type := {
  dirs : list string;                        (* existing directories *)
  csvs : list (string * list raw_row);       (* existing CSV files *)
  plots : list string;                       (* existing images *)
  stdout : list report;
  stderr : list string
}.

Definition M (A : Type) : Type := process -> outcome A * process.

Definition ret {A : Type} (a : A) : M A := fun p => (Return a, p).

Definition bind {A B : Type} (m : M A) (k : A -> M B) : M B :=
  fun p =>
    match m p with
    | (Return a, p') => k a p'
    | (SysExit c, p') => (SysExit c, p')
    | (Raise e, p') => (Raise e, p')
    | (Continues, p') => (Continues, p')
    end.

Definition sys_exit {A : Type} (code : Z) : M A := fun p => (SysExit code, p).
Definition raise {A : Type} (e : exn) : M A := fun p => (Raise e, p).
Definition continues {A : Type} : M A := fun p => (Continues, p).

Definition print (r : report) : M unit :=
  fun p => (Return tt,
            {| dirs := dirs p; csvs := csvs p; plots := plots p;
               stdout := stdout p ++ [r]; stderr := stderr p |}).

(** [print(..., file=sys.stderr)] *)
Definition eprint (s : string) : M unit :=
  fun p => (Return tt,
            {| dirs := dirs p; csvs := csvs p; plots := plots p;
               stdout := stdout p; stderr := stderr p ++ [s] |}).

Definition mem_string (s : string) (l : list string) : bool :=
  existsb (String.eqb s) l.

Fixpoint lookup_csv (path : string) (l : list (string * list raw_row))
    : option (list raw_row) :=
  match l with
  | [] => None
  | (k, v) :: t => if String.eqb k path then Some v else lookup_csv path t
  end.

Definition is_dir (path : string) : M bool :=
  fun p => (Return (mem_string path (dirs p)), p).

Definition is_file (path : string) : M bool :=
  fun p => (Return (match lookup_csv path (csvs p) with
                    | Some _ => true | None => false end), p).

(** [Path.exists()] *)
Definition path_exists (path : string) : M bool :=
  bind (is_dir path) (fun d =>
  bind (is_file path) (fun f => ret (d || f))).

(** [pd.read_csv(path)] for a path known to exist: the rows of the file,
    or an error when the path is a directory. *)
Definition read_csv (path : string) : M (list raw_row) :=
  fun p => match lookup_csv path (csvs p) with
           | Some rows => (Return rows, p)
           | None => (Raise IsADirectoryError, p)
           end.

(** [path / name] *)
Definition joinpath (path name : string) : string := path ++ "/" ++ name.

(** [Path.mkdir(exist_ok=True)] under an existing parent. *)
Definition mkdir_exist_ok (parent name : string) : M unit :=
  fun p =>
    let path := joinpath parent name in
    if negb (mem_string parent (dirs p)) then (Raise NotADirectoryError, p)
    else if mem_string path (dirs p) then (Return tt, p)
    else match lookup_csv path (csvs p) with
         | Some _ => (Raise FileExistsError, p)
         | None =>
             (Return tt,
              {| dirs := dirs p ++ [path]; csvs := csvs p;
                 plots := plots p; stdout := stdout p;
                 stderr := stderr p |})
         end.

End Proc.

Declare Scope proc_scope.
Delimit Scope proc_scope with proc.
Notation "x <- c ;; k" := (Proc.bind c (fun x => k))
  (at level 61, c at next level, right associativity) : proc_scope.
Notation "c ;; k" := (Proc.bind c (fun _ => k))
  (at level 61, right associativity) : proc_scope.

(* ================================================================== *)
(** ** scripts/generate_graphs.py *)

Module Scripts.
Import Frame Proc.
Local Open Scope proc_scope.

(** [load_transactions(directory)] *)
Definition load_transactions (directory : string) : M (list txn) :=
  let csv_path := joinpath directory "agentic_merged_transactions.csv" in
  found <- path_exists csv_path ;;
  (if negb found
   then eprint ("Error: " ++ csv_path ++ " not found") ;; sys_exit 1
   else ret tt) ;;
  raw <- read_csv csv_path ;;
  match load_frame raw with
  | Some df => ret df
  | None => raise ValueError
  end.

Definition timestamp_leb (a b : timestamp) : bool :=
  (ordinal a <? ordinal b)%Z
  || ((ordinal a =? ordinal b)%Z && (nanos a <=? nanos b)%Z).

(** [df["date"].min()] and [.max()]: missing dates are skipped, and the
    result is missing when no date is left. *)
Fixpoint date_min (df : list txn) : option timestamp :=
  match df with
  | [] => None
  | r :: t =>
      match date r, date_min t with
      | Some a, Some b => Some (if timestamp_leb a b then a else b)
      | Some a, None => Some a
      | None, m => m
      end
  end.

Fixpoint date_max (df : list txn) : option timestamp :=
  match df with
  | [] => None
  | r :: t =>
      match date r, date_max t with
      | Some a, Some b => Some (if timestamp_leb a b then b else a)
      | Some a, None => Some a
      | None, m => m
      end
  end.

(** [get_date_range_str(df)]: the two ends of the range; formatting a
    missing date with [strftime] raises. *)
Definition get_date_range_str (df : list txn) : M (timestamp * timestamp) :=
  match date_min df, date_max df with
  | Some lo, Some hi => ret (lo, hi)
  | _, _ => raise ValueError
  end.

(** [Series.unique()] on a key column, in order of first appearance. *)
Fixpoint unique (l : list (option string)) : list (option string) :=
  match l with
  | [] => []
  | x :: t =>
      x :: filter (fun y =>
                     negb match x, y with
                          | Some a, Some b => String.eqb a b
                          | None, None => true
                          | _, _ => false
                          end) (unique t)
  end.

(** [', '.join(names)] needs every name to be a string: a missing name
    (NaN) makes it raise.  [None] when some name is missing. *)
Fixpoint all_present (l : list (option string)) : option (list string) :=
  match l with
  | [] => Some []
  | Some s :: t =>
      match all_present t with Some r => Some (s :: r) | None => None end
  | None :: _ => None
  end.

(** *** The data behind each chart *)

Definition category_totals (ascending : bool) (df : list txn)
    : list (string * float64) :=
  sort_values ascending (groupby_sum category withdrawal (spending_df df)).

(** Pie data of [generate_category_breakdown]. *)
Definition top_categories (df : list txn) : list (string * float64) :=
  top_with_other (category_totals false df).

(** Bar data of [generate_income_vs_expenses]. *)
Definition income_vs_expenses (df : list txn) : Q * Q * Q :=
  let total_income := qsum (map deposit df) in
  let total_expenses := qsum (map withdrawal df) in
  (total_income, total_expenses, total_income - total_expenses).

Definition daily_counts (df : list txn) : list (Z * nat) :=
  groupby_size date_only df.

Definition merchant_totals (df : list txn) : list (string * float64) :=
  groupby_sum description withdrawal (spending_df df).

(** Bar data of [generate_top_merchants]. *)
Definition top_merchants (df : list txn) : list (string * float64) :=
  tail 15 (sort_values true (merchant_totals df)).

(** [Series.sort_index()] on a date index. *)
Definition sort_index (s : list (Z * float64)) : list (Z * float64) :=
  sort (fun a b => (fst a <=? fst b)%Z) s.

Definition daily_spending (df : list txn) : list (Z * float64) :=
  sort_index (groupby_sum date_only withdrawal (spending_df df)).

(** Curve of [generate_cumulative_spending]. *)
Definition cumulative (df : list txn) : list (Z * float64) :=
  cumsum (daily_spending df).

(** Bar data of [generate_spending_by_weekday]. *)
Definition weekday_totals (df : list txn) : list (string * float64) :=
  reindex_fill0 weekday_order
    (groupby_sum weekday withdrawal (spending_df df)).

(** [main()], from the parsed and resolved [directory] argument on, up to
    the line that joins the account names.  With a missing name the join
    raises; otherwise the run continues with that line and the chart
    generators, which are not followed. *)
Definition main (directory : string) : M unit :=
  found <- path_exists directory ;;
  (if negb found
   then eprint ("Error: Directory " ++ directory ++ " does not exist") ;;
        sys_exit 1
   else ret tt) ;;
  let assets_dir := joinpath directory "assets" in
  mkdir_exist_ok directory "assets" ;;
  print (GeneratingFrom directory) ;;
  print (OutputDirectory assets_dir) ;;
  df <- load_transactions directory ;;
  print (Loaded (List.length df)) ;;
  range <- get_date_range_str df ;;
  print (DateRange (fst range) (snd range)) ;;
  match all_present (unique (map account_name df)) with
  | None => raise TypeError
  | Some _ => continues
  end.

(** The state a run starts from: a directory tree and nothing written. *)
Definition start (ds : list string) (fs : list (string * list raw_row))
    : process :=
  {| dirs := ds; csvs := fs; plots := []; stdout := []; stderr := [] |}.

End Scripts.

(* ================================================================== *)
(** ** data/mock_dataset_2026/.../assets/generate_graphs.py

    The module-level script computes the same aggregates from one shared
    [spending_df]; it has no emptiness guard and keeps ten merchants. *)

Module MockDataset.
Import Frame.

(** Lines 56-60: the load. *)
Definition load (raw : list raw_row) : option (list txn) := load_frame raw.

Definition category_totals (df : list txn) : list (string * float64) :=
  sort_values false (groupby_sum category withdrawal (spending_df df)).

Definition top_categories (df : list txn) : list (string * float64) :=
  top_with_other (category_totals df).

Definition daily_spending (df : list txn) : list (Z * float64) :=
  Scripts.sort_index (groupby_sum date_only withdrawal (spending_df df)).

Definition merchant_totals (df : list txn) : list (string * float64) :=
  groupby_sum description withdrawal (spending_df df).

Definition top_merchants (df : list txn) : list (string * float64) :=
  tail 10 (sort_values true (merchant_totals df)).

(** [pivot_table(index="date_only", columns="category",
    values="withdrawal", aggfunc="sum", fill_value=0)] *)
Definition category_by_date (df : list txn)
    : list (Z * list (string * float64)) :=
  let sp :=
    filter (fun r => match date_only r, category r with
                     | Some _, Some _ => true
                     | _, _ => false
                     end) (spending_df df) in
  map (fun d =>
         (d, map (fun c =>
                    (c, sum (map withdrawal
                               (filter (fun r => has_key date_only d r
                                                 && has_key category c r)
                                       sp))))
                 (group_keys (map category sp))))
      (group_keys (map date_only sp)).

Definition weekday_totals (df : list txn) : list (string * float64) :=
  reindex_fill0 weekday_order
    (groupby_sum weekday withdrawal (spending_df df)).

End MockDataset.

(* ================================================================== *)
(** ** The ledger consistency engine

    The validators that implement the engine are not among the sources at
    hand; every definition of this module follows the specification's
    sections 3, 4.1, 4.2 and 4.3. *)

Module Engine.

(** A cell of a ledger table: absent, or its text. *)
Definition cell : Type := option string.

(** Modelled from the spec: the Ledger Table of section 3, an ordered
    sequence of rows under named columns, newest row first.  The table
    type itself is missing from the sources. *)
Record table : Type := {
  source : string;
  columns : list string;
  rows : list (list cell)
}.

(** Modelled from the spec: the Diagnostic of section 3.  The message is
    kept structured instead of rendered to text; the rendering code is
    missing from the sources. *)
Inductive message : Type :=
| MissingColumns (missing : list string)
| EmptyTable
| Unparsable (column text : string)
| Mismatch (date : cell) (expected actual previous withdrawal deposit : Q)
| MoreMismatches (suppressed : nat).

Record diagnostic : Type := {
  source_identifier : string;
  row_reference : option nat;
  text : message
}.

(** Modelled from the spec: the fixed ordered set of required columns of
    section 4.2. *)
Definition required_columns : list string :=
  ["date"; "description"; "category"; "deposit"; "withdrawal"; "balance";
   "account_name"].

(** The cell of a row under a named column; absent when the table has no
    such column. *)
Fixpoint field (cols : list string) (r : list cell) (name : string)
    : cell :=
  match cols, r with
  | c :: cs, v :: vs => if String.eqb c name then v else field cs vs name
  | _, _ => None
  end.

Definition has_column (t : table) (name : string) : bool :=
  existsb (String.eqb name) (columns t).

(** *** 4.1 Numeric Normalizer *)

Inductive ParseError : Type := Malformed (raw : string).

(** Modelled from the spec: [normalize(raw)] of section 4.1, missing from
    the sources.  [0.0] for an absent or blank value; otherwise the value
    with thousands separators and currency symbol stripped, parsed as a
    base-10 number; a [ParseError] when that is not a number. *)
Definition normalize (raw : cell) : ParseError + Q :=
  match raw with
  | None => inr 0
  | Some s =>
      if is_blank s then inr 0
      else match float_of_string (strip_currency s) with
           | Some q => inr q
           | None => inl (Malformed s)
           end
  end.

(** *** 4.2 Schema Checker *)

(** Modelled from the spec: [check_schema(table, required_columns)] of
    section 4.2, missing from the sources.  One diagnostic naming all
    missing columns, or none. *)
Definition check_schema (t : table) (required : list string)
    : list diagnostic :=
  let missing := filter (fun c => negb (has_column t c)) required in
  match missing with
  | [] => []
  | _ => [ {| source_identifier := source t; row_reference := None;
              text := MissingColumns missing |} ]
  end.

(** Modelled from the spec: the separately callable emptiness check of
    section 4.2, missing from the sources. *)
Definition check_empty (t : table) : list diagnostic :=
  match rows t, columns t with
  | [], _ | _, [] =>
      [ {| source_identifier := source t; row_reference := None;
           text := EmptyTable |} ]
  | _, _ => []
  end.

(** *** 4.3 Balance Consistency Checker *)

(** A row after normalization of its three numeric columns. *)
Record entry : Type := {
  e_date : cell;
  e_deposit : Q;
  e_withdrawal : Q;
  e_balance : Q
}.

(** Normalization of one row; the first malformed cell aborts it. *)
Definition normalize_row (cols : list string) (r : list cell)
    : (string * ParseError) + entry :=
  match normalize (field cols r "deposit") with
  | inl e => inl ("deposit", e)
  | inr d =>
      match normalize (field cols r "withdrawal") with
      | inl e => inl ("withdrawal", e)
      | inr w =>
          match normalize (field cols r "balance") with
          | inl e => inl ("balance", e)
          | inr b =>
              inr {| e_date := field cols r "date"; e_deposit := d;
                     e_withdrawal := w; e_balance := b |}
          end
      end
  end.

(** Normalization of all rows up front. *)
Fixpoint normalize_rows (cols : list string) (rs : list (list cell))
    : (string * ParseError) + list entry :=
  match rs with
  | [] => inr []
  | r :: t =>
      match normalize_row cols r with
      | inl e => inl e
      | inr x =>
          match normalize_rows cols t with
          | inl e => inl e
          | inr xs => inr (x :: xs)
          end
      end
  end.

Definition tolerance : Q := 1 # 100.

(** [expected = balance[i+1] - withdrawal[i] + deposit[i]] *)
Definition expected_balance (newer older : entry) : Q :=
  e_balance older - e_withdrawal newer + e_deposit newer.

(** [abs(expected - balance[i])] *)
Definition deviation (newer older : entry) : Q :=
  Qabs (expected_balance newer older - e_balance newer).

(** [abs(expected - balance[i]) > 0.01] *)
Definition mismatch (newer older : entry) : bool :=
  Qltb tolerance (deviation newer older).

(** The diagnostic of a mismatch at row index [i]: display row [i + 2],
    the date, expected and actual value and the three operands. *)
Definition mismatch_at (src : string) (i : nat) (newer older : entry)
    : diagnostic :=
  {| source_identifier := src;
     row_reference := Some (i + 2)%nat;
     text := Mismatch (e_date newer) (expected_balance newer older)
               (e_balance newer) (e_balance older) (e_withdrawal newer)
               (e_deposit newer) |}.

(** One turn of the loop at index [i]; the state is the list of detailed
    diagnostics collected so far and the number of mismatches seen. *)
Definition visit (src : string) (cap : nat) (es : list entry)
    (st : list diagnostic * nat) (i : nat) : list diagnostic * nat :=
  match nth_error es i, nth_error es (S i) with
  | Some newer, Some older =>
      if mismatch newer older then
        ((if (snd st <? cap)%nat
          then fst st ++ [mismatch_at src i newer older]
          else fst st),
         S (snd st))
      else st
  | _, _ => st
  end.

(** The indices from the second-to-last row up to index 0. *)
Definition traversal (n : nat) : list nat := rev (seq 0 (n - 1)).

(** The summary diagnostic: how many further mismatches were
    suppressed. *)
Definition more_mismatches (src : string) (n : nat) : diagnostic :=
  {| source_identifier := src; row_reference := None;
     text := MoreMismatches n |}.

(** Modelled from the spec: the row loop and diagnostic cap of section
    4.3, missing from the sources, on normalized rows. *)
Definition check_rows (src : string) (cap : nat) (es : list entry)
    : list diagnostic :=
  let (details, count) :=
    fold_left (visit src cap es) (traversal (List.length es)) ([], 0%nat) in
  if (cap <? count)%nat
  then details ++ [more_mismatches src (count - cap)]
  else details.

(** What the loop reports at index [i] when nothing is capped. *)
Definition report_at (src : string) (es : list entry) (i : nat)
    : list diagnostic :=
  match nth_error es i, nth_error es (S i) with
  | Some newer, Some older =>
      if mismatch newer older then [mismatch_at src i newer older] else []
  | _, _ => []
  end.

(** Every mismatch of a ledger, uncapped, in traversal order: the
    reference against which the capped loop is stated. *)
Definition mismatches (src : string) (es : list entry) : list diagnostic :=
  flat_map (report_at src es) (traversal (List.length es)).

(** Every adjacent pair satisfies the running-balance equation exactly. *)
Definition consistent (es : list entry) : Prop :=
  forall i newer older,
    nth_error es i = Some newer ->
    nth_error es (S i) = Some older ->
    e_balance newer == e_balance older - e_withdrawal newer + e_deposit newer.

(** Display rows of a list of diagnostics that carry one. *)
Fixpoint display_rows (ds : list diagnostic) : list nat :=
  match ds with
  | [] => []
  | d :: t =>
      match row_reference d with
      | Some n => n :: display_rows t
      | None => display_rows t
      end
  end.

(** Modelled from the spec: [check_balance(table)] of section 4.3 with
    its caller-chosen cap, missing from the sources.  A single diagnostic
    when a numeric column is missing or a cell does not normalize;
    otherwise the capped mismatches. *)
Definition check_balance (cap : nat) (t : table) : list diagnostic :=
  match filter (fun c => negb (has_column t c))
               ["deposit"; "withdrawal"; "balance"] with
  | [] =>
      match normalize_rows (columns t) (rows t) with
      | inl (col, Malformed raw) =>
          [ {| source_identifier := source t; row_reference := None;
               text := Unparsable col raw |} ]
      | inr es => check_rows (source t) cap es
      end
  | missing =>
      [ {| source_identifier := source t; row_reference := None;
           text := MissingColumns missing |} ]
  end.

(** *** Running the checkers on one table *)

Inductive call : Type :=
| CallCheckSchema
| CallCheckEmpty
| CallCheckBalance.

(** A computation that logs which checkers it invoked. *)
Definition Logged (A : Type) : Type := list call * A.

Definition invoke {A : Type} (c : call) (a : A) : Logged A := ([c], a).

Definition andthen {A B : Type} (m : Logged A) (k : A -> Logged B)
    : Logged B :=
  let (l1, a) := m in
  let (l2, b) := k a in
  (l1 ++ l2, b).

Definition done {A : Type} (a : A) : Logged A := ([], a).

(** Modelled from the spec: the per-table sequence of sections 4.2 and
    4.3, missing from the sources.  The schema check comes first and ends
    the validation when it reports; emptiness is checked when the caller
    treats it as fatal; the balance check runs last. *)
Definition validate_table (cap : nat) (empty_is_fatal : bool) (t : table)
    : Logged (list diagnostic) :=
  andthen (invoke CallCheckSchema (check_schema t required_columns))
    (fun ds =>
       match ds with
       | _ :: _ => done ds
       | [] =>
           andthen (if empty_is_fatal
                    then invoke CallCheckEmpty (check_empty t)
                    else done [])
             (fun es =>
                match es with
                | _ :: _ => done es
                | [] => invoke CallCheckBalance (check_balance cap t)
                end)
       end).

End Engine.

(* ================================================================== *)
(** ** Sample ledgers *)

Module Scenarios.
Import Engine.

(** A ledger row with the seven required columns, in their order. *)
Definition ledger_row (date deposit withdrawal balance : string)
    : list cell :=
  let amount s := if is_empty s then None else Some s in
  [Some date; Some "coffee"; Some "food"; amount deposit;
   amount withdrawal; amount balance; Some "checking"].

Definition ledger (rs : list (list cell)) : table :=
  {| source := "ledger.csv"; columns := required_columns; rows := rs |}.

(** Scenario A: three consistent rows, newest first. *)
Definition scenario_a : table :=
  ledger [ ledger_row "2026-01-03" "50.00" "" "130.00";
           ledger_row "2026-01-02" "" "20.00" "80.00";
           ledger_row "2026-01-01" "" "" "100.00" ].

Definition scenario_a_entries : list entry :=
  [ {| e_date := Some "2026-01-03"; e_deposit := 5000 # 100;
       e_withdrawal := 0; e_balance := 13000 # 100 |};
    {| e_date := Some "2026-01-02"; e_deposit := 0;
       e_withdrawal := 2000 # 100; e_balance := 8000 # 100 |};
    {| e_date := Some "2026-01-01"; e_deposit := 0;
       e_withdrawal := 0; e_balance := 10000 # 100 |} ].

(** Scenario B: as A, with the newest balance recorded as 125.00. *)
Definition scenario_b : table :=
  ledger [ ledger_row "2026-01-03" "50.00" "" "125.00";
           ledger_row "2026-01-02" "" "20.00" "80.00";
           ledger_row "2026-01-01" "" "" "100.00" ].

(** Scenario C: ten rows without deposits or withdrawals whose balance
    changes between seven adjacent pairs. *)
Definition scenario_c : table :=
  ledger [ ledger_row "2026-01-10" "" "" "8";
           ledger_row "2026-01-09" "" "" "7";
           ledger_row "2026-01-08" "" "" "6";
           ledger_row "2026-01-07" "" "" "5";
           ledger_row "2026-01-06" "" "" "4";
           ledger_row "2026-01-05" "" "" "3";
           ledger_row "2026-01-04" "" "" "2";
           ledger_row "2026-01-03" "" "" "1";
           ledger_row "2026-01-02" "" "" "1";
           ledger_row "2026-01-01" "" "" "1" ].

Definition scenario_c_entries : list entry :=
  map (fun x => {| e_date := Some (fst x); e_deposit := 0;
                   e_withdrawal := 0; e_balance := inject_Z (snd x) |})
      [ ("2026-01-10", 8); ("2026-01-09", 7); ("2026-01-08", 6);
        ("2026-01-07", 5); ("2026-01-06", 4); ("2026-01-05", 3);
        ("2026-01-04", 2); ("2026-01-03", 1); ("2026-01-02", 1);
        ("2026-01-01", 1) ]%Z.

(** Scenario D: a consistent ledger without the [account_name]
    column. *)
Definition scenario_d : table :=
  {| source := "ledger.csv";
     columns := ["date"; "description"; "category"; "deposit";
                 "withdrawal"; "balance"];
     rows := [ [Some "2026-01-02"; Some "coffee"; Some "food"; None;
                Some "20.00"; Some "80.00"];
               [Some "2026-01-01"; Some "salary"; Some "income"; None;
                None; Some "100.00"] ] |}.

(** A row without deposit or withdrawal. *)
Definition balance_entry (b : Q) : entry :=
  {| e_date := None; e_deposit := 0; e_withdrawal := 0; e_balance := b |}.

(** Two rows whose newest balance is off by exactly the tolerance, and
    by slightly more. *)
Definition at_tolerance : list entry :=
  [ balance_entry (10001 # 100); balance_entry 100 ].

Definition above_tolerance : list entry :=
  [ balance_entry (1000100001 # 10000000); balance_entry 100 ].

End Scenarios.

(* ================================================================== *)
(** ** The spending aggregates of both scripts, side by side *)

Module Spending.
Import Frame.

Record aggregates : Type := {
  by_category_ascending : list (string * float64);
  by_category_descending : list (string * float64);
  pie : list (string * float64);
  by_merchant : list (string * float64);
  top_15_merchants : list (string * float64);
  top_10_merchants : list (string * float64);
  by_day : list (Z * float64);
  cumulative_by_day : list (Z * float64);
  by_day_and_category : list (Z * list (string * float64));
  by_weekday : list (string * float64)
}.

Definition spending_aggregates (df : list txn) : aggregates := {|
  by_category_ascending := Scripts.category_totals true df;
  by_category_descending := MockDataset.category_totals df;
  pie := Scripts.top_categories df;
  by_merchant := Scripts.merchant_totals df;
  top_15_merchants := Scripts.top_merchants df;
  top_10_merchants := MockDataset.top_merchants df;
  by_day := Scripts.daily_spending df;
  cumulative_by_day := Scripts.cumulative df;
  by_day_and_category := MockDataset.category_by_date df;
  by_weekday := Scripts.weekday_totals df
|}.

(** Two rows that agree in every column except, possibly, the
    deposit. *)
Definition same_but_deposit (a b : txn) : Prop :=
  date a = date b /\ description a = description b
  /\ category a = category b /\ withdrawal a = withdrawal b
  /\ balance a = balance b /\ account_name a = account_name b.

(** Two frames of the same rows that differ only in the deposit
    column. *)
Definition differ_only_in_deposit (df1 df2 : list txn) : Prop :=
  Forall2 same_but_deposit df1 df2.

(** A sample frame: day 20454 is 2026-01-01, a Thursday. *)
Definition sample_row (day : Z) (desc cat : string) (dep wd bal : Q)
    : txn :=
  {| date := Some {| ordinal := day; nanos := 0 |};
     description := Some desc; category := Some cat;
     deposit := Fin dep; withdrawal := Fin wd; balance := Fin bal;
     account_name := Some "checking" |}.

Definition sample_frame : list txn :=
  [ sample_row 20456 "grocer" "food" 0 (45 # 1) (1455 # 1);
    sample_row 20455 "employer" "income" (1000 # 1) 0 (1500 # 1);
    sample_row 20455 "cafe" "food" 0 (5 # 1) (500 # 1);
    sample_row 20454 "landlord" "rent" 0 (495 # 1) (505 # 1) ].

(** The same rows with other deposits. *)
Definition sample_frame' : list txn :=
  [ sample_row 20456 "grocer" "food" (7 # 1) (45 # 1) (1455 # 1);
    sample_row 20455 "employer" "income" (1 # 2) 0 (1500 # 1);
    sample_row 20455 "cafe" "food" (3 # 1) (5 # 1) (500 # 1);
    sample_row 20454 "landlord" "rent" 0 (495 # 1) (505 # 1) ].

(** Ten categories with withdrawals 1..10. *)
Definition ten_categories : list txn :=
  map (fun x => sample_row 20454 "shop" (fst x) 0 (inject_Z (snd x)) 0)
      [ ("a", 1); ("b", 2); ("c", 3); ("d", 4); ("e", 5); ("f", 6);
        ("g", 7); ("h", 8); ("i", 9); ("j", 10) ]%Z.

End Spending.

(* ================================================================== *)
(** ** What a cell loads as, and sample files *)

Module Cells.
Import Frame Proc.

(** A cell that is absent or holds nothing but white space. *)
Definition blank_cell (c : option string) : bool :=
  match c with
  | None => true
  | Some s => is_blank s
  end.

(** A cell that is present, not blank, and does not read as a number
    even with separators and currency symbol stripped. *)
Definition malformed_cell (c : option string) : bool :=
  match c with
  | None => false
  | Some s =>
      negb (is_blank s)
      && match float_of_string (strip_currency s) with
         | Some _ => false
         | None => true
         end
  end.

(** The cell [c] loads as [amount] in the deposit and withdrawal
    columns and as [bal] in the balance column, in every row. *)
Definition loads_as (c : option string) (amount bal : float64) : Prop :=
  forall (d : option timestamp) (r : raw_row),
    (raw_deposit r = c -> deposit (load_row d r) = amount)
    /\ (raw_withdrawal r = c -> withdrawal (load_row d r) = amount)
    /\ (raw_balance r = c -> balance (load_row d r) = bal).

(** A row of the file with the given deposit, withdrawal and balance
    cells. *)
Definition file_row (dep wd bal : option string) : raw_row :=
  {| raw_date := DateAt {| ordinal := 20454; nanos := 0 |};
     raw_description := Some "cafe";
     raw_category := Some "food";
     raw_deposit := dep;
     raw_withdrawal := wd;
     raw_balance := bal;
     raw_account_name := Some "checking" |}.

Definition csv_name : string := "agentic_merged_transactions.csv".

(** A directory tree that holds one ledger file under [/data/jan]. *)
Definition tree_with (rows : list raw_row) : process :=
  Scripts.start ["/data"; "/data/jan"]
    [("/data/jan/agentic_merged_transactions.csv", rows)].

(** A directory tree without [/data/jan]. *)
Definition tree_without : process := Scripts.start ["/data"] [].

End Cells.

(* ================================================================== *)
(** ** Totals of a column and of a Series *)

Module Totals.
Import Frame.

(** What a cell adds to [Series.sum()]: a missing value adds nothing. *)
Definition amount (x : float64) : Q :=
  match x with
  | NaN => 0
  | Fin q => q
  end.

(** The row has a key, so [groupby] puts it in a group. *)
Definition keyed {K : Type} (key : txn -> option K) (r : txn) : bool :=
  match key r with
  | Some _ => true
  | None => false
  end.

(** The sum of the values of a Series. *)
Definition series_total {K : Type} (s : list (K * float64)) : Q :=
  qsum (map snd s).

(** The strict order of the keys as a relation. *)
Definition key_lt {K : Type} `{Key K} (a b : K) : Prop :=
  key_ltb a b = true.

(** The column of a frame restricted to the rows that satisfy [p],
    summed. *)
Definition column_total (col : txn -> float64) (p : txn -> bool)
    (df : list txn) : Q :=
  qsum (map col (filter p df)).

End Totals.

(* ================================================================== *)
(** ** Further values the charts show *)

Module Shown.
Import Frame.

(** Strict order of two present values; nothing is below or above a
    missing one. *)
Definition float_lt (a b : float64) : Prop :=
  match a, b with
  | Fin x, Fin y => x < y
  | _, _ => False
  end.

(** [cumulative.iloc[-1] if len(cumulative) > 0 else 0], the total in the
    title of the cumulative spending chart. *)
Definition cumulative_total (df : list txn) : float64 :=
  match Scripts.cumulative df with
  | [] => Fin 0
  | e :: s => snd (last s e)
  end.

(** The palette of the category charts. *)
Definition CATEGORY_COLORS : list string :=
  ["#3498db"; "#e74c3c"; "#2ecc71"; "#9b59b6"; "#f39c12"; "#1abc9c";
   "#e67e22"; "#34495e"; "#95a5a6"].

(** [colors=CATEGORY_COLORS[: len(top_categories)]], the colours handed to
    [ax.pie] with the wedges of [generate_category_breakdown]. *)
Definition pie_colors (df : list txn) : list string :=
  firstn (List.length (Scripts.top_categories df)) CATEGORY_COLORS.

End Shown.

(* ================================================================== *)
(** ** The state a run of the entry point stops in *)

Module Run.
Import Frame Proc.

Definition assets_of (directory : string) : string :=
  joinpath directory "assets".

Definition csv_of (directory : string) : string :=
  joinpath directory "agentic_merged_transactions.csv".

(** The directories after [mkdir(exist_ok=True)]. *)
Definition with_assets (p : process) (directory : string) : list string :=
  if mem_string (assets_of directory) (dirs p) then dirs p
  else dirs p ++ [assets_of directory].

(** The state after the directory check, [mkdir] and the two opening
    lines, with [said] further lines on stdout and [errors] on stderr. *)
Definition stopped (p : process) (directory : string) (said : list report)
    (errors : list string) : process :=
  {| dirs := with_assets p directory;
     csvs := csvs p;
     plots := plots p;
     stdout := stdout p ++ [GeneratingFrom directory;
                            OutputDirectory (assets_of directory)] ++ said;
     stderr := stderr p ++ errors |}.

(** The directory exists and [mkdir(exist_ok=True)] goes through. *)
Definition started (p : process) (directory : string) : Prop :=
  mem_string directory (dirs p) = true
  /\ (mem_string (assets_of directory) (dirs p) = true
      \/ lookup_csv (assets_of directory) (csvs p) = None).

End Run.

(* ================================================================== *)
(** ** Sample runs *)

Module Samples.
Import Frame Proc.

Definition new_year : timestamp := {| ordinal := 20454; nanos := 0 |}.



(** A row without an account name. *)
Definition anonymous_row : raw_row :=
  {| raw_date := DateAt new_year; raw_description := Some "cafe";
     raw_category := Some "food"; raw_deposit := None;
     raw_withdrawal := Some "5"; raw_balance := Some "95";
     raw_account_name := None |}.

Definition anonymous_raw : list raw_row := [anonymous_row].

Definition anonymous : list txn := [load_row (Some new_year) anonymous_row].

End Samples.

(* ================================================================== *)
(** ** The rows behind the pivot table *)

Module Pivot.
Import Frame.



End Pivot.

(* ================================================================== *)
(** ** Text that is certainly not a number *)

Module Reading.

(** Characters that occur in no text that pandas or [float] reads as a
    number, as an infinity or NaN, or as a truth value: the ASCII
    punctuation other than [.], [+], [-] and [_], and the letters that
    occur in none of [inf], [infinity], [nan], [true], [false] and are not
    one of [d], [j], [x]. *)
Definition foreign_chars : string :=
  "!#$%&*,/:;<=>?@^{|}~bcghkmopqvwzBCGHKMOPQVWZ".

Definition foreign_char (c : ascii) : bool := contains_char c foreign_chars.

(** The text holds such a character, so it is not a number to any
    reader. *)
Fixpoint has_foreign (s : string) : bool :=
  match s with
  | String c t => foreign_char c || has_foreign t
  | EmptyString => false
  end.

End Reading.

(* ================================================================== *)
(** ** A ledger at the tolerance boundary *)

Module Boundary.
Import Engine.

(** Three rows without deposits or withdrawals.  The newest balance
    differs from the one below it by exactly 0.01, and that one differs
    from the oldest by 0.0100001. *)
Definition ledger : table :=
  Scenarios.ledger
    [ Scenarios.ledger_row "2026-01-03" "" "" "100.0200001";
      Scenarios.ledger_row "2026-01-02" "" "" "100.0100001";
      Scenarios.ledger_row "2026-01-01" "" "" "100" ].

Definition newest : entry :=
  {| e_date := Some "2026-01-03"; e_deposit := 0; e_withdrawal := 0;
     e_balance := 1000200001 # 10000000 |}.

Definition middle : entry :=
  {| e_date := Some "2026-01-02"; e_deposit := 0; e_withdrawal := 0;
     e_balance := 1000100001 # 10000000 |}.

Definition oldest : entry :=
  {| e_date := Some "2026-01-01"; e_deposit := 0; e_withdrawal := 0;
     e_balance := 100 |}.

Definition entries : list entry := [newest; middle; oldest].

End Boundary.

(* ================================================================== *)
(** * Properties *)

(** ** Numbers and text *)

Lemma Qltb_lt (x y : Q) : Qltb x y = true <-> x < y.
Proof.
  unfold Qltb. rewrite negb_true_iff.
  split; intros H.
  - apply Qnot_le_lt. intros Hle.
    apply Qle_bool_iff in Hle. congruence.
  - destruct (Qle_bool y x) eqn:E; [|reflexivity].
    apply Qle_bool_iff in E. exfalso. exact (Qlt_not_le _ _ H E).
Qed.

Lemma Qltb_ge (x y : Q) : Qltb x y = false <-> y <= x.
Proof.
  unfold Qltb. rewrite negb_false_iff. apply Qle_bool_iff.
Qed.

Lemma gt0_Fin (x : float64) : gt0 x = true -> exists q, x = Fin q /\ 0 < q.
Proof.
  destruct x as [|q]; simpl; [discriminate|].
  intros H. exists q. split; [reflexivity | now apply Qltb_lt].
Qed.

Example float_of_string_ex1 : float_of_string "1234.50" = Some (123450 # 100).
Proof. reflexivity. Qed.
Example float_of_string_ex2 : float_of_string " -2.5e1 " = Some (inject_Z (-25)).
Proof. reflexivity. Qed.
Example float_of_string_ex3 : float_of_string "$5" = None.
Proof. reflexivity. Qed.
Example float_of_string_ex4 : float_of_string "1,234" = None.
Proof. reflexivity. Qed.
Example float_of_string_ex5 : float_of_string "." = None.
Proof. reflexivity. Qed.
Example amount_re_ex1 : amount_re "$1,234.50" = true.
Proof. reflexivity. Qed.
Example amount_re_ex2 : amount_re "12.a" = false.
Proof. reflexivity. Qed.

(* ================================================================== *)
(** ** The balance checker *)

Section BalanceLoop.
Import Engine.
Variables (src : string) (cap : nat) (es : list entry).

Lemma visit_report (st : list diagnostic * nat) (i : nat) :
  visit src cap es st i =
    (fst st ++ firstn (cap - snd st) (report_at src es i),
     (snd st + List.length (report_at src es i))%nat).
Proof.
  destruct st as [details count]. unfold visit, report_at.
  cbn [fst snd].
  destruct (nth_error es i) as [newer|];
    [destruct (nth_error es (S i)) as [older|];
     [destruct (mismatch newer older) eqn:Hm|]|];
    rewrite ?firstn_nil, ?app_nil_r; cbn [List.length];
    rewrite ?Nat.add_0_r; try reflexivity.
  destruct (count <? cap)%nat eqn:Hc.
  - apply Nat.ltb_lt in Hc.
    destruct (cap - count)%nat eqn:Hd; [lia|].
    cbn [firstn]. rewrite firstn_nil. f_equal. lia.
  - apply Nat.ltb_ge in Hc.
    replace (cap - count)%nat with 0%nat by lia.
    cbn [firstn]. rewrite app_nil_r. f_equal. lia.
Qed.

Lemma fold_visit (l : list nat) (st : list diagnostic * nat) :
  fold_left (visit src cap es) l st =
    (fst st ++ firstn (cap - snd st) (flat_map (report_at src es) l),
     (snd st + List.length (flat_map (report_at src es) l))%nat).
Proof.
  revert st. induction l as [|i l IH]; intros st.
  - simpl. rewrite firstn_nil, app_nil_r, Nat.add_0_r.
    now destruct st.
  - simpl. rewrite IH, visit_report. simpl.
    rewrite firstn_app, length_app, <- app_assoc.
    f_equal; [|lia].
    f_equal. f_equal. f_equal. lia.
Qed.

(** The capped loop is the uncapped list cut at [cap], with the summary
    when something was cut. *)
Lemma check_rows_capped :
  check_rows src cap es =
    firstn cap (mismatches src es)
    ++ (if (cap <? List.length (mismatches src es))%nat
        then [more_mismatches src (List.length (mismatches src es) - cap)]
        else []).
Proof.
  unfold check_rows, mismatches. rewrite fold_visit. simpl.
  rewrite Nat.sub_0_r.
  destruct (cap <? _)%nat; [reflexivity | now rewrite app_nil_r].
Qed.

Lemma report_at_consistent (i : nat) :
  consistent es -> report_at src es i = [].
Proof.
  intros Hc. unfold report_at.
  destruct (nth_error es i) as [newer|] eqn:E1; [|reflexivity].
  destruct (nth_error es (S i)) as [older|] eqn:E2; [|reflexivity].
  specialize (Hc i newer older E1 E2).
  assert (Hm : mismatch newer older = false).
  { unfold mismatch. apply Qltb_ge. unfold deviation, expected_balance.
    assert (Hz : e_balance older - e_withdrawal newer + e_deposit newer
                 - e_balance newer == 0) by (rewrite <- Hc; ring).
    rewrite Hz. unfold tolerance. simpl. discriminate. }
  now rewrite Hm.
Qed.

Lemma mismatches_consistent : consistent es -> mismatches src es = [].
Proof.
  intros Hc. unfold mismatches.
  induction (traversal (List.length es)) as [|i l IH]; [reflexivity|].
  simpl. now rewrite report_at_consistent, IH.
Qed.

End BalanceLoop.

Example scenario_a_normalizes :
  Engine.normalize_rows (Engine.columns Scenarios.scenario_a)
    (Engine.rows Scenarios.scenario_a) = inr Scenarios.scenario_a_entries.
Proof. reflexivity. Qed.

Section BalanceTable.
Import Engine.

(** A table that passes the schema check has the three numeric
    columns. *)
Lemma schema_passed_numeric (t : table) :
  check_schema t required_columns = [] ->
  filter (fun c => negb (has_column t c))
         ["deposit"; "withdrawal"; "balance"] = [].
Proof.
  unfold check_schema, required_columns. cbn [filter].
  destruct (has_column t "date"), (has_column t "description"),
    (has_column t "category"), (has_column t "deposit"),
    (has_column t "withdrawal"), (has_column t "balance"),
    (has_column t "account_name"); cbn; intros H;
    solve [reflexivity | discriminate H].
Qed.

Lemma check_balance_rows (cap : nat) (t : table) (es : list entry) :
  check_schema t required_columns = [] ->
  normalize_rows (columns t) (rows t) = inr es ->
  check_balance cap t = check_rows (source t) cap es.
Proof.
  intros Hs Hn. unfold check_balance.
  now rewrite (schema_passed_numeric t Hs), Hn.
Qed.

Lemma traversal_In (n i : nat) : In i (traversal n) <-> (S i < n)%nat.
Proof.
  unfold traversal. rewrite <- in_rev, in_seq. lia.
Qed.

Lemma display_rows_app (a b : list diagnostic) :
  display_rows (a ++ b) = display_rows a ++ display_rows b.
Proof.
  induction a as [|d a IH]; [reflexivity|].
  simpl. destruct (row_reference d); simpl; now rewrite IH.
Qed.

Lemma display_rows_report (src : string) (es : list entry) (i : nat) :
  display_rows (report_at src es i) =
    match report_at src es i with [] => [] | _ => [(i + 2)%nat] end.
Proof.
  unfold report_at.
  destruct (nth_error es i) as [newer|]; [|reflexivity].
  destruct (nth_error es (S i)) as [older|]; [|reflexivity].
  now destruct (mismatch newer older).
Qed.

Lemma display_rows_flat_map (src : string) (es : list entry)
    (l : list nat) (r : nat) :
  In r (display_rows (flat_map (report_at src es) l)) <->
  exists j, In j l /\ r = (j + 2)%nat /\ report_at src es j <> [].
Proof.
  induction l as [|i l IH].
  - simpl. split; [tauto | intros (j & [] & _)].
  - cbn [flat_map]. rewrite display_rows_app, in_app_iff, IH.
    rewrite display_rows_report. split.
    + intros [H | (j & Hj & Hr & Hne)].
      * destruct (report_at src es i) eqn:E; [destruct H|].
        destruct H as [H | []]. exists i.
        split; [now left|]. split; [now symmetry|]. now rewrite E.
      * exists j. split; [now right | tauto].
    + intros (j & [-> | Hj] & Hr & Hne).
      * left. destruct (report_at src es j); [congruence|]. now left.
      * right. exists j. tauto.
Qed.

Lemma display_rows_firstn (n : nat) (l : list diagnostic) (r : nat) :
  In r (display_rows (firstn n l)) -> In r (display_rows l).
Proof.
  revert n. induction l as [|d l IH]; intros [|n]; simpl; try tauto.
  destruct (row_reference d); simpl; intros H.
  - destruct H as [H | H]; [now left | right; eauto].
  - eauto.
Qed.

Lemma display_rows_check_rows (src : string) (cap : nat)
    (es : list entry) (r : nat) :
  In r (display_rows (check_rows src cap es)) ->
  In r (display_rows (mismatches src es)).
Proof.
  rewrite check_rows_capped, display_rows_app, in_app_iff.
  intros [H | H]; [now apply display_rows_firstn in H|].
  destruct (cap <? _)%nat; destruct H.
Qed.

Lemma report_at_pair (src : string) (es : list entry) (i : nat)
    (newer older : entry) :
  nth_error es i = Some newer ->
  nth_error es (S i) = Some older ->
  report_at src es i =
    if mismatch newer older then [mismatch_at src i newer older] else [].
Proof. intros H1 H2. unfold report_at. now rewrite H1, H2. Qed.

(** The traversal visits the indices in strictly decreasing order. *)
Lemma traversal_sorted (n : nat) : StronglySorted gt (traversal n).
Proof.
  unfold traversal. induction (n - 1)%nat as [|m IH]; [constructor|].
  rewrite seq_S, rev_app_distr. simpl. constructor; [exact IH|].
  apply Forall_forall. intros x Hx. apply in_rev, in_seq in Hx. lia.
Qed.

Lemma display_rows_sorted (src : string) (es : list entry)
    (l : list nat) :
  StronglySorted gt l ->
  forall n,
    StronglySorted gt
      (display_rows (firstn n (flat_map (report_at src es) l))).
Proof.
  induction 1 as [|i l Hs IH Hall]; intros n.
  - simpl. rewrite firstn_nil. constructor.
  - cbn [flat_map]. rewrite firstn_app, display_rows_app.
    assert (Hrest : forall m r,
               In r (display_rows
                       (firstn m (flat_map (report_at src es) l))) ->
               (r < i + 2)%nat).
    { intros m r Hr. apply display_rows_firstn in Hr.
      apply display_rows_flat_map in Hr. destruct Hr as (j & Hj & -> & _).
      rewrite Forall_forall in Hall. specialize (Hall j Hj). lia. }
    unfold report_at at 1.
    destruct (nth_error es i) as [newer|]; [|rewrite firstn_nil; apply IH].
    destruct (nth_error es (S i)) as [older|];
      [|rewrite firstn_nil; apply IH].
    destruct (mismatch newer older); [|rewrite firstn_nil; apply IH].
    destruct n as [|n]; [apply IH|].
    cbn [firstn display_rows mismatch_at row_reference app].
    rewrite firstn_nil. cbn [display_rows app].
    constructor; [apply IH|].
    apply Forall_forall. intros r Hr. apply Hrest in Hr. lia.
Qed.

End BalanceTable.

(** C1.  A ledger that passed the schema check, whose numeric cells all
    normalize, and in which every adjacent row pair satisfies
    [balance[i] = balance[i+1] - withdrawal[i] + deposit[i]] exactly, gets an
    empty diagnostic list from [check_balance], whatever the cap. *)
Theorem consistent_ledger_accepted (cap : nat) (t : Engine.table)
    (es : list Engine.entry) :
  Engine.check_schema t Engine.required_columns = [] ->
  Engine.normalize_rows (Engine.columns t) (Engine.rows t) = inr es ->
  Engine.consistent es ->
  Engine.check_balance cap t = [].
Proof.
  intros Hs Hn Hc.
  rewrite (check_balance_rows cap t es Hs Hn), check_rows_capped.
  now rewrite (mismatches_consistent _ es Hc), firstn_nil.
Qed.

Lemma scenario_a_consistent : Engine.consistent Scenarios.scenario_a_entries.
Proof.
  intros i newer older H1 H2.
  destruct i as [|[|[|i]]]; simpl in H1, H2;
    try discriminate H2;
    injection H1 as <-; injection H2 as <-; reflexivity.
Qed.

Lemma consistent_ledger_accepted_witness :
  Engine.check_balance 3 Scenarios.scenario_a = [].
Proof.
  apply (consistent_ledger_accepted 3 Scenarios.scenario_a
           Scenarios.scenario_a_entries).
  - reflexivity.
  - reflexivity.
  - exact scenario_a_consistent.
Defined.

(** Scenario B: the newest balance recorded as 125.00 is reported once,
    at display row 2, with expected 130.00 and actual 125.00. *)
Example scenario_b_reported :
  exists d, Engine.check_balance 3 Scenarios.scenario_b = [d]
    /\ Engine.row_reference d = Some 2%nat
    /\ exists e a p w x,
         Engine.text d = Engine.Mismatch (Some "2026-01-03") e a p w x
         /\ e == 130 /\ a == 125.
Proof.
  eexists. split; [vm_compute; reflexivity|].
  split; [reflexivity|].
  do 5 eexists. split; [reflexivity|]. split; reflexivity.
Qed.

Section BalanceReport.
Import Engine.
Variables (src : string) (es : list entry).

Lemma mismatch_off (newer older : entry) :
  mismatch newer older = true
  <-> 1 # 100 < Qabs (e_balance older - e_withdrawal newer + e_deposit newer
                      - e_balance newer).
Proof. unfold mismatch. apply Qltb_lt. Qed.

Lemma display_rows_In (r : nat) (l : list diagnostic) :
  In r (display_rows l) <-> In (Some r) (map row_reference l).
Proof.
  induction l as [|d l IH]; simpl; [tauto|].
  destruct (row_reference d) as [n|]; simpl; rewrite IH.
  - split; (intros [H | H]; [left | now right]); congruence.
  - split; [now right | intros [H | H]; [discriminate H | exact H]].
Qed.

(** What the uncapped loop collects over a strictly decreasing list of
    indices: the detailed reports of the indices whose pair is off by more
    than the tolerance, in the same order. *)
Lemma mismatches_listed (l : list nat) :
  StronglySorted gt l ->
  exists idx,
    StronglySorted gt idx
    /\ (forall i,
          In i idx <->
          In i l
          /\ exists newer older,
               nth_error es i = Some newer /\ nth_error es (S i) = Some older
               /\ 1 # 100 < Qabs (e_balance older - e_withdrawal newer
                                  + e_deposit newer - e_balance newer))
    /\ Forall2
         (fun i d =>
            exists newer older,
              nth_error es i = Some newer /\ nth_error es (S i) = Some older
              /\ d = {| source_identifier := src;
                        row_reference := Some (i + 2)%nat;
                        text := Mismatch (e_date newer)
                                  (e_balance older - e_withdrawal newer
                                   + e_deposit newer)
                                  (e_balance newer) (e_balance older)
                                  (e_withdrawal newer) (e_deposit newer) |})
         idx (flat_map (report_at src es) l).
Proof.
  induction 1 as [|i l Hs IH Hall].
  - exists []. split; [constructor|]. split; [|constructor].
    intros i. simpl. tauto.
  - destruct IH as (idx & Hsorted & Hin & Hrel).
    cbn [flat_map]. unfold report_at at 1.
    assert (Hskip : (forall newer older,
                       nth_error es i = Some newer ->
                       nth_error es (S i) = Some older ->
                       mismatch newer older = false) ->
                    forall j,
                      In j idx <->
                      In j (i :: l)
                      /\ exists newer older,
                           nth_error es j = Some newer
                           /\ nth_error es (S j) = Some older
                           /\ 1 # 100 < Qabs (e_balance older
                                              - e_withdrawal newer
                                              + e_deposit newer
                                              - e_balance newer)).
    { intros Hno j. rewrite Hin. split.
      - intros [Hj Hb]. split; [now right | exact Hb].
      - intros [[<- | Hj] Hb]; [|now split].
        destruct Hb as (newer & older & H1 & H2 & Hlt).
        apply mismatch_off in Hlt. rewrite (Hno _ _ H1 H2) in Hlt.
        discriminate Hlt. }
    destruct (nth_error es i) as [newer|] eqn:E1;
      [destruct (nth_error es (S i)) as [older|] eqn:E2;
       [destruct (mismatch newer older) eqn:Hm|]|].
    + exists (i :: idx). split; [|split].
      * constructor; [exact Hsorted|].
        apply Forall_forall. intros j Hj. apply Hin in Hj.
        rewrite Forall_forall in Hall. now apply Hall.
      * intros j. simpl. rewrite Hin. split.
        -- intros [<- | [Hj Hb]].
           ++ split; [now left|]. exists newer, older.
              split; [exact E1|]. split; [exact E2|].
              now apply mismatch_off.
           ++ split; [now right | exact Hb].
        -- intros [[<- | Hj] Hb]; [now left | right; now split].
      * cbn [app]. constructor; [|exact Hrel].
        exists newer, older. split; [exact E1|]. split; [exact E2|].
        reflexivity.
    + exists idx. split; [exact Hsorted|]. split; [|exact Hrel].
      apply Hskip. intros n o Hn Ho.
      injection Hn as <-. injection Ho as <-. exact Hm.
    + exists idx. split; [exact Hsorted|]. split; [|exact Hrel].
      apply Hskip. intros n o _ Ho. discriminate Ho.
    + exists idx. split; [exact Hsorted|]. split; [|exact Hrel].
      apply Hskip. intros n o Hn. discriminate Hn.
Qed.

(** The display row of a pair is among the uncapped mismatches exactly
    when the pair is off by more than the tolerance. *)
Lemma reported_iff (i : nat) (newer older : entry) :
  nth_error es i = Some newer ->
  nth_error es (S i) = Some older ->
  (In (i + 2)%nat (display_rows (mismatches src es))
   <-> 1 # 100 < Qabs (e_balance older - e_withdrawal newer + e_deposit newer
                       - e_balance newer)).
Proof.
  intros H1 H2.
  assert (Hi : In i (traversal (List.length es))).
  { apply traversal_In. apply nth_error_Some. congruence. }
  unfold mismatches. rewrite display_rows_flat_map, <- mismatch_off. split.
  - intros (j & Hj & Hr & Hne).
    assert (j = i) by lia. subst j.
    rewrite (report_at_pair src es i newer older H1 H2) in Hne.
    destruct (mismatch newer older); congruence.
  - intros Hm. exists i. split; [exact Hi|]. split; [reflexivity|].
    rewrite (report_at_pair src es i newer older H1 H2), Hm.
    discriminate.
Qed.

Lemma mismatches_length :
  (List.length (mismatches src es) <= List.length es - 1)%nat.
Proof.
  unfold mismatches.
  assert (Hl : List.length (traversal (List.length es))
               = (List.length es - 1)%nat).
  { unfold traversal. now rewrite length_rev, length_seq. }
  rewrite <- Hl. clear Hl.
  induction (traversal (List.length es)) as [|i l IH];
    [apply Nat.le_refl|].
  cbn [flat_map]. rewrite length_app. cbn [List.length].
  assert (List.length (report_at src es i) <= 1)%nat; [|lia].
  unfold report_at.
  destruct (nth_error es i); [|simpl; lia].
  destruct (nth_error es (S i)); [|simpl; lia].
  destruct (mismatch _ _); simpl; lia.
Qed.

End BalanceReport.

Lemma sorted_unique (l1 l2 : list nat) :
  StronglySorted gt l1 -> StronglySorted gt l2 ->
  (forall i, In i l1 <-> In i l2) -> l1 = l2.
Proof.
  intros H1. revert l2. induction H1 as [|x l1 Hs1 IH Hall1]; intros l2 H2 Hin.
  - destruct l2 as [|y l2]; [reflexivity|].
    destruct (proj2 (Hin y) (or_introl eq_refl)).
  - destruct H2 as [|y l2 Hs2 Hall2].
    + destruct (proj1 (Hin x) (or_introl eq_refl)).
    + rewrite Forall_forall in Hall1, Hall2.
      assert (Hxy : x = y).
      { destruct (proj1 (Hin x) (or_introl eq_refl)) as [Hy | Hy];
          [now symmetry|].
        destruct (proj2 (Hin y) (or_introl eq_refl)) as [Hx | Hx];
          [exact Hx|].
        specialize (Hall1 _ Hx). specialize (Hall2 _ Hy). lia. }
      subst y. f_equal. apply IH; [exact Hs2|].
      intros i. split; intros Hi.
      * destruct (proj1 (Hin i) (or_intror Hi)) as [<- | H]; [|exact H].
        specialize (Hall1 _ Hi). lia.
      * destruct (proj2 (Hin i) (or_intror Hi)) as [<- | H]; [|exact H].
        specialize (Hall2 _ Hi). lia.
Qed.

Lemma Forall2_firstn {A B : Type} (R : A -> B -> Prop) (n : nat)
    (l1 : list A) (l2 : list B) :
  Forall2 R l1 l2 -> Forall2 R (firstn n l1) (firstn n l2).
Proof.
  intros H. revert n. induction H as [|a b l1 l2 Hab H IH]; intros [|n];
    simpl; constructor; auto.
Qed.

(** C6.  When more adjacent pairs of a ledger are off by more than the
    tolerance than the cap allows, [check_balance] returns exactly [cap]
    detailed diagnostics followed by one summary.  With [bad] the indices
    of the pairs with [|balance[i+1] - withdrawal[i] + deposit[i] -
    balance[i]| > 0.01] in oldest-to-newest order (decreasing index), the
    detailed diagnostics are those of the first [cap] indices of [bad], in
    this order, each carrying the display row [i + 2], the date, the
    expected and the actual balance and the three operands; the summary
    carries no row and states the number of mismatches beyond the cap. *)
Theorem capped_mismatches_summarized (cap : nat) (t : Engine.table)
    (es : list Engine.entry) (bad : list nat) :
  Engine.check_schema t Engine.required_columns = [] ->
  Engine.normalize_rows (Engine.columns t) (Engine.rows t) = inr es ->
  StronglySorted gt bad ->
  (forall i,
     In i bad <->
     exists newer older,
       nth_error es i = Some newer /\ nth_error es (S i) = Some older
       /\ 1 # 100 < Qabs (Engine.e_balance older - Engine.e_withdrawal newer
                          + Engine.e_deposit newer - Engine.e_balance newer)) ->
  (cap < List.length bad)%nat ->
  exists shown,
    Engine.check_balance cap t =
      shown
      ++ [ {| Engine.source_identifier := Engine.source t;
              Engine.row_reference := None;
              Engine.text := Engine.MoreMismatches (List.length bad - cap) |} ]
    /\ List.length shown = cap
    /\ List.length (Engine.check_balance cap t) = S cap
    /\ Forall2
         (fun i d =>
            exists newer older,
              nth_error es i = Some newer /\ nth_error es (S i) = Some older
              /\ d = {| Engine.source_identifier := Engine.source t;
                        Engine.row_reference := Some (i + 2)%nat;
                        Engine.text :=
                          Engine.Mismatch (Engine.e_date newer)
                            (Engine.e_balance older - Engine.e_withdrawal newer
                             + Engine.e_deposit newer)
                            (Engine.e_balance newer) (Engine.e_balance older)
                            (Engine.e_withdrawal newer)
                            (Engine.e_deposit newer) |})
         (firstn cap bad) shown.
Proof.
  intros Hs Hn Hsorted Hbad Hcap.
  destruct (mismatches_listed (Engine.source t) es
              (Engine.traversal (List.length es)) (traversal_sorted _))
    as (idx & Hidx & Hin & Hrel).
  assert (Heq : bad = idx).
  { apply sorted_unique; [exact Hsorted | exact Hidx|].
    intros i. rewrite Hbad, Hin. split.
    - intros (newer & older & H1 & H2 & Hlt). split.
      + apply traversal_In. apply nth_error_Some. congruence.
      + now exists newer, older.
    - intros [_ H]. exact H. }
  subst idx. fold (Engine.mismatches (Engine.source t) es) in Hrel.
  pose proof (Forall2_length Hrel) as Hlen.
  assert (Hshown : List.length
                     (firstn cap (Engine.mismatches (Engine.source t) es))
                   = cap).
  { apply firstn_length_le. lia. }
  assert (Hout : Engine.check_balance cap t =
                 firstn cap (Engine.mismatches (Engine.source t) es)
                 ++ [ {| Engine.source_identifier := Engine.source t;
                         Engine.row_reference := None;
                         Engine.text :=
                           Engine.MoreMismatches (List.length bad - cap) |} ]).
  { rewrite (check_balance_rows cap t es Hs Hn), check_rows_capped.
    rewrite <- Hlen.
    assert (Hlt : (cap <? List.length bad)%nat = true)
      by now apply Nat.ltb_lt.
    rewrite Hlt. reflexivity. }
  exists (firstn cap (Engine.mismatches (Engine.source t) es)).
  split; [exact Hout|]. split; [exact Hshown|]. split.
  - rewrite Hout, length_app, Hshown. simpl. lia.
  - now apply Forall2_firstn.
Qed.

Example scenario_c_normalizes :
  Engine.normalize_rows (Engine.columns Scenarios.scenario_c)
    (Engine.rows Scenarios.scenario_c) = inr Scenarios.scenario_c_entries.
Proof. vm_compute. reflexivity. Qed.

Lemma capped_mismatches_summarized_witness :
  exists shown,
    Engine.check_balance 3 Scenarios.scenario_c =
      shown
      ++ [ {| Engine.source_identifier := "ledger.csv";
              Engine.row_reference := None;
              Engine.text := Engine.MoreMismatches 4 |} ]
    /\ List.length shown = 3%nat
    /\ List.length (Engine.check_balance 3 Scenarios.scenario_c) = 4%nat
    /\ Forall2
         (fun i d =>
            exists newer older,
              nth_error Scenarios.scenario_c_entries i = Some newer
              /\ nth_error Scenarios.scenario_c_entries (S i) = Some older
              /\ d = {| Engine.source_identifier := "ledger.csv";
                        Engine.row_reference := Some (i + 2)%nat;
                        Engine.text :=
                          Engine.Mismatch (Engine.e_date newer)
                            (Engine.e_balance older - Engine.e_withdrawal newer
                             + Engine.e_deposit newer)
                            (Engine.e_balance newer) (Engine.e_balance older)
                            (Engine.e_withdrawal newer)
                            (Engine.e_deposit newer) |})
         [6; 5; 4]%nat shown.
Proof.
  apply (capped_mismatches_summarized 3 Scenarios.scenario_c
           Scenarios.scenario_c_entries [6; 5; 4; 3; 2; 1; 0]%nat).
  - reflexivity.
  - vm_compute. reflexivity.
  - repeat (constructor; [|repeat constructor; lia]). constructor.
  - intros i. split.
    + intros H. simpl in H.
      repeat (destruct H as [<- | H];
              [do 2 eexists; split; [reflexivity|];
               split; [reflexivity | vm_compute; reflexivity]|]).
      destruct H.
    + intros (newer & older & H1 & H2 & Hlt).
      do 7 (destruct i as [|i]; [simpl; tauto|]).
      destruct i as [|i];
        [injection H1 as <-; injection H2 as <-;
         vm_compute in Hlt; discriminate Hlt|].
      destruct i as [|i];
        [injection H1 as <-; injection H2 as <-;
         vm_compute in Hlt; discriminate Hlt|].
      destruct i as [|i]; [discriminate H2|].
      destruct i as [|i]; discriminate H1.
  - simpl. lia.
Defined.

(** Scenario C: seven mismatches under the default cap 3 give three
    detailed diagnostics for display rows 8, 7, 6 and one summary of 4
    more. *)
Example scenario_c_reported :
  List.length (Engine.check_balance 3 Scenarios.scenario_c) = 4%nat
  /\ map Engine.row_reference (Engine.check_balance 3 Scenarios.scenario_c)
     = [Some 8; Some 7; Some 6; None]%nat
  /\ map Engine.text (skipn 3 (Engine.check_balance 3 Scenarios.scenario_c))
     = [Engine.MoreMismatches 4].
Proof. vm_compute. repeat split; reflexivity. Qed.

(** C7.  The tolerance boundary is exclusive.  For the adjacent pair at
    index [i] of a ledger, with deviation
    [|balance[i+1] - withdrawal[i] + deposit[i] - balance[i]|]:
    [check_balance] has a diagnostic for its display row [i + 2] only when
    the deviation is strictly greater than 0.01; at a deviation of exactly
    0.01 it has none; and a deviation above 0.01 is reported, with the
    row, date, expected and actual balance and the operands, whenever the
    cap cannot cut it (the ledger has at most [cap] pairs, or at most [cap]
    mismatches). *)
Theorem tolerance_boundary_exclusive (cap : nat) (t : Engine.table)
    (es : list Engine.entry) (i : nat) (newer older : Engine.entry) :
  Engine.check_schema t Engine.required_columns = [] ->
  Engine.normalize_rows (Engine.columns t) (Engine.rows t) = inr es ->
  nth_error es i = Some newer ->
  nth_error es (S i) = Some older ->
  let deviation :=
    Qabs (Engine.e_balance older - Engine.e_withdrawal newer
          + Engine.e_deposit newer - Engine.e_balance newer) in
  (In (Some (i + 2)%nat)
      (map Engine.row_reference (Engine.check_balance cap t)) ->
   1 # 100 < deviation)
  /\ (deviation == 1 # 100 ->
      ~ In (Some (i + 2)%nat)
           (map Engine.row_reference (Engine.check_balance cap t)))
  /\ (1 # 100 < deviation ->
      (List.length es <= S cap)%nat
      \/ (List.length (Engine.mismatches (Engine.source t) es) <= cap)%nat ->
      In {| Engine.source_identifier := Engine.source t;
            Engine.row_reference := Some (i + 2)%nat;
            Engine.text :=
              Engine.Mismatch (Engine.e_date newer)
                (Engine.e_balance older - Engine.e_withdrawal newer
                 + Engine.e_deposit newer)
                (Engine.e_balance newer) (Engine.e_balance older)
                (Engine.e_withdrawal newer) (Engine.e_deposit newer) |}
         (Engine.check_balance cap t)).
Proof.
  intros Hs Hn H1 H2 deviation.
  rewrite (check_balance_rows cap t es Hs Hn).
  pose proof (reported_iff (Engine.source t) es i newer older H1 H2) as Hiff.
  fold deviation in Hiff.
  assert (Honly : In (Some (i + 2)%nat)
                     (map Engine.row_reference
                        (Engine.check_rows (Engine.source t) cap es)) ->
                  1 # 100 < deviation).
  { intros H. apply display_rows_In, display_rows_check_rows in H.
    now apply Hiff. }
  split; [exact Honly|]. split.
  - intros Heq H. apply Honly in H. rewrite Heq in H.
    exact (Qlt_irrefl _ H).
  - intros Hlt Hcap.
    assert (Hfit : (List.length (Engine.mismatches (Engine.source t) es)
                    <= cap)%nat).
    { destruct Hcap as [Hcap | Hcap]; [|exact Hcap].
      pose proof (mismatches_length (Engine.source t) es). lia. }
    rewrite check_rows_capped.
    apply in_or_app. left. rewrite firstn_all2 by exact Hfit.
    unfold Engine.mismatches. apply in_flat_map. exists i. split.
    + apply traversal_In. apply nth_error_Some. congruence.
    + rewrite (report_at_pair (Engine.source t) es i newer older H1 H2).
      apply mismatch_off in Hlt. rewrite Hlt. now left.
Qed.

Example boundary_normalizes :
  Engine.normalize_rows (Engine.columns Boundary.ledger)
    (Engine.rows Boundary.ledger) = inr Boundary.entries.
Proof. vm_compute. reflexivity. Qed.

(** On the boundary ledger the newest row is off by exactly 0.01 and is
    not reported; the middle row is off by 0.0100001 and is. *)
Lemma tolerance_boundary_exclusive_witness :
  Qabs (Engine.e_balance Boundary.middle - Engine.e_withdrawal Boundary.newest
        + Engine.e_deposit Boundary.newest - Engine.e_balance Boundary.newest)
    == 1 # 100
  /\ ~ In (Some 2%nat)
          (map Engine.row_reference (Engine.check_balance 3 Boundary.ledger))
  /\ Qabs (Engine.e_balance Boundary.oldest
           - Engine.e_withdrawal Boundary.middle
           + Engine.e_deposit Boundary.middle
           - Engine.e_balance Boundary.middle)
       == 100001 # 10000000
  /\ In {| Engine.source_identifier := "ledger.csv";
           Engine.row_reference := Some 3%nat;
           Engine.text :=
             Engine.Mismatch (Some "2026-01-02")
               (Engine.e_balance Boundary.oldest
                - Engine.e_withdrawal Boundary.middle
                + Engine.e_deposit Boundary.middle)
               (Engine.e_balance Boundary.middle)
               (Engine.e_balance Boundary.oldest)
               (Engine.e_withdrawal Boundary.middle)
               (Engine.e_deposit Boundary.middle) |}
        (Engine.check_balance 3 Boundary.ledger).
Proof.
  pose proof (tolerance_boundary_exclusive 3 Boundary.ledger Boundary.entries
                0 Boundary.newest Boundary.middle eq_refl
                boundary_normalizes eq_refl eq_refl) as Hnewest.
  pose proof (tolerance_boundary_exclusive 3 Boundary.ledger Boundary.entries
                1 Boundary.middle Boundary.oldest eq_refl
                boundary_normalizes eq_refl eq_refl) as Hmiddle.
  cbv zeta in Hnewest, Hmiddle.
  destruct Hnewest as (_ & Hexact & _).
  destruct Hmiddle as (_ & _ & Hreported).
  split; [vm_compute; reflexivity|].
  split; [apply Hexact; vm_compute; reflexivity|].
  split; [vm_compute; reflexivity|].
  apply Hreported; [vm_compute; reflexivity | left; simpl; lia].
Defined.

(** The boundary on two-row ledgers: off by exactly 0.01 passes, off by
    0.0100001 is reported. *)
Example boundary_examples :
  Engine.check_rows "x" 3 Scenarios.at_tolerance = []
  /\ Engine.display_rows (Engine.check_rows "x" 3 Scenarios.above_tolerance)
     = [2%nat]
  /\ map Engine.row_reference (Engine.check_balance 3 Boundary.ledger)
     = [Some 3%nat].
Proof. vm_compute. repeat split; reflexivity. Qed.

(* ================================================================== *)
(** ** The schema checker *)

Lemma has_column_In (t : Engine.table) (c : string) :
  Engine.has_column t c = true <-> In c (Engine.columns t).
Proof.
  unfold Engine.has_column. rewrite existsb_exists. split.
  - intros (x & Hx & He). apply String.eqb_eq in He. now subst.
  - intros H. exists c. split; [exact H | apply String.eqb_refl].
Qed.

(** C5.  A ledger that lacks at least one of the seven required columns
    gets exactly one diagnostic from [check_schema]; its message lists all
    and only the missing columns; and the validation of that table ends
    there: [check_balance] is not invoked on it. *)
Theorem missing_columns_single_diagnostic (cap : nat) (empty_is_fatal : bool)
    (t : Engine.table) :
  (exists c, In c Engine.required_columns /\ ~ In c (Engine.columns t)) ->
  exists missing,
    Engine.check_schema t Engine.required_columns =
      [ {| Engine.source_identifier := Engine.source t;
           Engine.row_reference := None;
           Engine.text := Engine.MissingColumns missing |} ]
    /\ (forall c, In c missing <->
                  In c Engine.required_columns /\ ~ In c (Engine.columns t))
    /\ snd (Engine.validate_table cap empty_is_fatal t) =
         Engine.check_schema t Engine.required_columns
    /\ ~ In Engine.CallCheckBalance
           (fst (Engine.validate_table cap empty_is_fatal t)).
Proof.
  intros (c0 & Hreq & Hmiss).
  set (missing := filter (fun c => negb (Engine.has_column t c))
                    Engine.required_columns).
  assert (Hin : forall c, In c missing <->
                  In c Engine.required_columns /\ ~ In c (Engine.columns t)).
  { intros c. unfold missing. rewrite filter_In, negb_true_iff.
    rewrite <- has_column_In. split; intros [H1 H2]; split; auto.
    - now rewrite H2.
    - now destruct (Engine.has_column t c). }
  assert (Hs : Engine.check_schema t Engine.required_columns =
               [ {| Engine.source_identifier := Engine.source t;
                    Engine.row_reference := None;
                    Engine.text := Engine.MissingColumns missing |} ]).
  { unfold Engine.check_schema. fold missing.
    destruct missing as [|m ms] eqn:E; [|reflexivity].
    exfalso. apply (proj2 (Hin c0)). now split. }
  exists missing. split; [exact Hs|]. split; [exact Hin|].
  unfold Engine.validate_table, Engine.andthen, Engine.invoke, Engine.done.
  rewrite Hs. simpl. split; [reflexivity|].
  intros [H | []]. discriminate H.
Qed.

Lemma missing_columns_single_diagnostic_witness :
  exists missing,
    Engine.check_schema Scenarios.scenario_d Engine.required_columns =
      [ {| Engine.source_identifier := "ledger.csv";
           Engine.row_reference := None;
           Engine.text := Engine.MissingColumns missing |} ]
    /\ (forall c, In c missing <->
                  In c Engine.required_columns
                  /\ ~ In c (Engine.columns Scenarios.scenario_d))
    /\ snd (Engine.validate_table 3 true Scenarios.scenario_d) =
         Engine.check_schema Scenarios.scenario_d Engine.required_columns
    /\ ~ In Engine.CallCheckBalance
           (fst (Engine.validate_table 3 true Scenarios.scenario_d)).
Proof.
  apply (missing_columns_single_diagnostic 3 true Scenarios.scenario_d).
  exists "account_name". split.
  - simpl. tauto.
  - simpl. intros H.
    repeat (destruct H as [H | H]; [discriminate H|]). exact H.
Defined.

(** Scenario D: the diagnostic names [account_name] alone and only the
    schema checker ran. *)
Example scenario_d_reported :
  Engine.validate_table 3 true Scenarios.scenario_d =
    ([Engine.CallCheckSchema],
     [ {| Engine.source_identifier := "ledger.csv";
          Engine.row_reference := None;
          Engine.text := Engine.MissingColumns ["account_name"] |} ]).
Proof. reflexivity. Qed.

(** With all seven columns present the schema check passes and the
    balance check does run. *)
Example scenario_a_runs_balance_check :
  fst (Engine.validate_table 3 true Scenarios.scenario_a) =
    [Engine.CallCheckSchema; Engine.CallCheckEmpty; Engine.CallCheckBalance].
Proof. reflexivity. Qed.

(* ================================================================== *)
(** ** Sorting a Series *)

Section SortFacts.
Context {A : Type} (leb : A -> A -> bool).
Hypothesis leb_total : forall a b, leb a b = true \/ leb b a = true.
Hypothesis leb_trans :
  forall a b c, leb a b = true -> leb b c = true -> leb a c = true.

Let le (a b : A) : Prop := leb a b = true.

Lemma insert_perm (x : A) (l : list A) :
  Permutation (insert leb x l) (x :: l).
Proof.
  induction l as [|y l IH]; simpl; [reflexivity|].
  destruct (leb x y); [reflexivity|].
  rewrite IH. apply perm_swap.
Qed.

Lemma sort_perm (l : list A) : Permutation (sort leb l) l.
Proof.
  induction l as [|x l IH]; simpl; [reflexivity|].
  now rewrite insert_perm, IH.
Qed.

Lemma insert_sorted (x : A) (l : list A) :
  StronglySorted le l -> StronglySorted le (insert leb x l).
Proof.
  induction 1 as [|y l Hs IH Hall]; simpl.
  - constructor; constructor.
  - destruct (leb x y) eqn:E.
    + constructor; [now constructor|].
      constructor; [exact E|].
      eapply Forall_impl; [|exact Hall].
      intros z Hz. exact (leb_trans _ _ _ E Hz).
    + constructor; [exact IH|].
      assert (Hyx : le y x).
      { destruct (leb_total x y) as [H | H]; [congruence | exact H]. }
      rewrite Forall_forall in *. intros z Hz.
      apply (Permutation_in _ (insert_perm x l)) in Hz.
      destruct Hz as [<- | Hz]; [exact Hyx | now apply Hall].
Qed.

Lemma sort_sorted (l : list A) : StronglySorted le (sort leb l).
Proof.
  induction l as [|x l IH]; simpl; [constructor|].
  now apply insert_sorted.
Qed.

(** In a sorted list everything before a cut is below everything after
    it. *)
Lemma sorted_cut (l : list A) (n : nat) (a b : A) :
  StronglySorted le l -> In a (firstn n l) -> In b (skipn n l) -> le a b.
Proof.
  intros Hs. revert n. induction Hs as [|y l Hs IH Hall]; intros n Ha Hb.
  - rewrite firstn_nil in Ha. destruct Ha.
  - destruct n as [|n]; [destruct Ha|].
    simpl in Ha, Hb. destruct Ha as [<- | Ha].
    + rewrite Forall_forall in Hall. apply Hall.
      rewrite <- (firstn_skipn n l). apply in_or_app. now right.
    + exact (IH n Ha Hb).
Qed.

End SortFacts.



Lemma tail_skipn {A : Type} (l : list A) (n : nat) :
  (n <= List.length l)%nat -> tail (List.length l - n) l = skipn n l.
Proof.
  intros H. unfold tail. f_equal. lia.
Qed.

(* ================================================================== *)
(** ** The category pie *)

Section Pie.
Import Frame.

Lemma top_with_other_cases (totals : list (string * float64)) :
  top_with_other totals =
    if (8 <? List.length totals)%nat
    then firstn 8 totals
         ++ (if gt0 (sum (map snd (skipn 8 totals)))
             then [("Other", sum (map snd (skipn 8 totals)))]
             else [])
    else totals.
Proof.
  unfold top_with_other, head.
  destruct (8 <? List.length totals)%nat eqn:E; [|reflexivity].
  apply Nat.ltb_lt in E.
  rewrite tail_skipn by lia.
  destruct (gt0 _); [reflexivity | now rewrite app_nil_r].
Qed.

Lemma top_with_other_length (totals : list (string * float64)) :
  (List.length (top_with_other totals) <= 9)%nat.
Proof.
  rewrite top_with_other_cases.
  destruct (8 <? List.length totals)%nat eqn:E.
  - rewrite length_app.
    pose proof (firstn_le_length 8 totals).
    destruct (gt0 _); cbn [List.length]; lia.
  - apply Nat.ltb_ge in E. lia.
Qed.

End Pie.

(* ================================================================== *)
(** ** Spending aggregates never read the deposit column *)

Section DepositIndependence.
Import Frame Spending.

Lemma spending_df_related (df1 df2 : list txn) :
  differ_only_in_deposit df1 df2 ->
  differ_only_in_deposit (spending_df df1) (spending_df df2).
Proof.
  unfold differ_only_in_deposit, spending_df.
  induction 1 as [|a b l1 l2 Hab Hl IH]; simpl; [constructor|].
  destruct Hab as (Hd & Hm & Hc & Hw & Hb & Hn).
  rewrite <- Hw. destruct (gt0 (withdrawal a)); [|exact IH].
  constructor; [|exact IH]. repeat split; assumption.
Qed.

Lemma spending_df_idem (df : list txn) :
  spending_df (spending_df df) = spending_df df.
Proof.
  unfold spending_df. induction df as [|r df IH]; simpl; [reflexivity|].
  destruct (gt0 (withdrawal r)) eqn:E; simpl; [|exact IH].
  now rewrite E, IH.
Qed.

Section OneKey.
Context {K : Type} `{Key K}.
Variable key : txn -> option K.
Hypothesis key_agrees :
  forall a b, same_but_deposit a b -> key a = key b.

Lemma keys_related (df1 df2 : list txn) :
  differ_only_in_deposit df1 df2 -> map key df1 = map key df2.
Proof.
  induction 1 as [|a b l1 l2 Hab Hl IH]; simpl; [reflexivity|].
  now rewrite (key_agrees a b Hab), IH.
Qed.

Lemma group_related (p : txn -> bool) (df1 df2 : list txn) :
  (forall a b, same_but_deposit a b -> p a = p b) ->
  differ_only_in_deposit df1 df2 ->
  map withdrawal (filter p df1) = map withdrawal (filter p df2).
Proof.
  intros Hp. induction 1 as [|a b l1 l2 Hab Hl IH]; simpl; [reflexivity|].
  rewrite <- (Hp a b Hab). destruct (p a); [|exact IH].
  simpl. destruct Hab as (_ & _ & _ & Hw & _). now rewrite Hw, IH.
Qed.

Lemma has_key_related (k : K) (a b : txn) :
  same_but_deposit a b -> has_key key k a = has_key key k b.
Proof.
  intros Hab. unfold has_key. now rewrite (key_agrees a b Hab).
Qed.

Lemma groupby_sum_related (df1 df2 : list txn) :
  differ_only_in_deposit df1 df2 ->
  groupby_sum key withdrawal df1 = groupby_sum key withdrawal df2.
Proof.
  intros Hd. unfold groupby_sum.
  rewrite (keys_related df1 df2 Hd).
  apply map_ext. intros k.
  now rewrite (group_related (has_key key k) df1 df2
                 (has_key_related k) Hd).
Qed.
End OneKey.

Lemma category_agrees (a b : txn) :
  same_but_deposit a b -> category a = category b.
Proof. intros H. apply H. Qed.

Lemma description_agrees (a b : txn) :
  same_but_deposit a b -> description a = description b.
Proof. intros H. apply H. Qed.

Lemma date_only_agrees (a b : txn) :
  same_but_deposit a b -> date_only a = date_only b.
Proof. intros (Hd & _). unfold date_only. now rewrite Hd. Qed.

Lemma weekday_agrees (a b : txn) :
  same_but_deposit a b -> weekday a = weekday b.
Proof. intros (Hd & _). unfold weekday. now rewrite Hd. Qed.

Lemma pivot_rows_related (df1 df2 : list txn) :
  differ_only_in_deposit df1 df2 ->
  differ_only_in_deposit
    (filter (fun r => match date_only r, category r with
                      | Some _, Some _ => true
                      | _, _ => false
                      end) df1)
    (filter (fun r => match date_only r, category r with
                      | Some _, Some _ => true
                      | _, _ => false
                      end) df2).
Proof.
  induction 1 as [|a b l1 l2 Hab Hl IH]; simpl; [constructor|].
  rewrite <- (date_only_agrees a b Hab), <- (category_agrees a b Hab).
  destruct (date_only a), (category a); try exact IH.
  constructor; [exact Hab | exact IH].
Qed.

Lemma category_by_date_related (df1 df2 : list txn) :
  differ_only_in_deposit df1 df2 ->
  MockDataset.category_by_date df1 = MockDataset.category_by_date df2.
Proof.
  intros Hd. unfold MockDataset.category_by_date.
  pose proof (pivot_rows_related _ _ (spending_df_related _ _ Hd)) as Hp.
  rewrite (keys_related date_only date_only_agrees _ _ Hp).
  rewrite (keys_related category category_agrees _ _ Hp).
  apply map_ext. intros d. f_equal.
  apply map_ext. intros c. f_equal. f_equal.
  apply group_related; [|exact Hp].
  intros a b Hab.
  now rewrite (has_key_related date_only date_only_agrees d a b Hab),
    (has_key_related category category_agrees c a b Hab).
Qed.

End DepositIndependence.

(** C9.  Every per-category, per-merchant, per-day and per-weekday
    spending aggregate of the two scripts is computed from [spending_df],
    the rows whose withdrawal is strictly greater than 0: dropping the
    other rows beforehand changes none of them.  So two loaded frames that
    differ only in their deposit column have identical spending
    aggregates. *)
Theorem spending_ignores_deposit (df1 df2 : list Frame.txn) :
  Spending.differ_only_in_deposit df1 df2 ->
  Spending.spending_aggregates df1 = Spending.spending_aggregates df2
  /\ Spending.spending_aggregates (Frame.spending_df df1)
     = Spending.spending_aggregates df1
  /\ (forall r, In r (Frame.spending_df df1) <->
                In r df1 /\ exists q, Frame.withdrawal r = Fin q /\ 0 < q).
Proof.
  intros Hd.
  pose proof (spending_df_related df1 df2 Hd) as Hs.
  pose proof (groupby_sum_related Frame.category category_agrees _ _ Hs)
    as Hcat.
  pose proof (groupby_sum_related Frame.description description_agrees _ _ Hs)
    as Hmer.
  pose proof (groupby_sum_related Frame.date_only date_only_agrees _ _ Hs)
    as Hday.
  pose proof (groupby_sum_related Frame.weekday weekday_agrees _ _ Hs)
    as Hwk.
  pose proof (category_by_date_related df1 df2 Hd) as Hpiv.
  split; [|split].
  - unfold Spending.spending_aggregates, Scripts.category_totals,
      MockDataset.category_totals, Scripts.top_categories,
      Scripts.category_totals, Scripts.merchant_totals,
      Scripts.top_merchants, MockDataset.top_merchants,
      Scripts.merchant_totals, MockDataset.merchant_totals,
      Scripts.cumulative, Scripts.daily_spending, Scripts.weekday_totals.
    now rewrite Hcat, Hmer, Hday, Hwk, Hpiv.
  - unfold Spending.spending_aggregates, Scripts.category_totals,
      MockDataset.category_totals, Scripts.top_categories,
      Scripts.category_totals, Scripts.merchant_totals,
      Scripts.top_merchants, MockDataset.top_merchants,
      Scripts.merchant_totals, MockDataset.merchant_totals,
      Scripts.cumulative, Scripts.daily_spending, Scripts.weekday_totals,
      MockDataset.category_by_date.
    now rewrite !spending_df_idem.
  - intros r. unfold Frame.spending_df. rewrite filter_In.
    split; intros [Hin Hw]; (split; [exact Hin|]).
    + now apply gt0_Fin.
    + destruct Hw as (q & -> & Hq). simpl. now apply Qltb_lt.
Qed.

Lemma spending_ignores_deposit_witness :
  Spending.spending_aggregates Spending.sample_frame
  = Spending.spending_aggregates Spending.sample_frame'
  /\ Spending.spending_aggregates (Frame.spending_df Spending.sample_frame)
     = Spending.spending_aggregates Spending.sample_frame
  /\ (forall r, In r (Frame.spending_df Spending.sample_frame) <->
                In r Spending.sample_frame
                /\ exists q, Frame.withdrawal r = Fin q /\ 0 < q).
Proof.
  apply (spending_ignores_deposit Spending.sample_frame Spending.sample_frame').
  unfold Spending.differ_only_in_deposit, Spending.sample_frame,
    Spending.sample_frame'.
  repeat constructor.
Defined.

(** The deposit column does matter elsewhere: the income bar of
    [generate_income_vs_expenses] differs between the two sample frames
    while the expenses bar does not. *)
Example income_reads_deposit :
  Scripts.income_vs_expenses Spending.sample_frame = (1000, 545, 455)
  /\ Scripts.income_vs_expenses Spending.sample_frame'
     = (21 # 2, 545, (21 # 2) - 545).
Proof. split; vm_compute; reflexivity. Qed.

(* ================================================================== *)
(** ** Reading the text of a cell *)

Section TextFacts.

Lemma is_empty_true (s : string) : is_empty s = true -> s = "".
Proof. destruct s; [reflexivity | discriminate]. Qed.

Lemma string_app_empty (s : string) : (s ++ "")%string = s.
Proof. induction s as [|c s IH]; simpl; congruence. Qed.

Lemma all_chars_app (p : ascii -> bool) (a b : string) :
  all_chars p (a ++ b) = all_chars p a && all_chars p b.
Proof.
  induction a as [|c a IH]; simpl; [reflexivity|].
  now rewrite IH, andb_assoc.
Qed.

Lemma all_chars_impl (p q : ascii -> bool) (s : string) :
  (forall c, p c = true -> q c = true) ->
  all_chars p s = true -> all_chars q s = true.
Proof.
  intros Hpq. induction s as [|c s IH]; simpl; [reflexivity|].
  rewrite !andb_true_iff. intros [H1 H2]. auto.
Qed.

Lemma all_chars_contains (p : ascii -> bool) (s : string) (c : ascii) :
  all_chars p s = true -> contains_char c s = true -> p c = true.
Proof.
  induction s as [|a s IH]; simpl; [discriminate|].
  rewrite andb_true_iff, orb_true_iff. intros [H1 H2] [H | H].
  - apply Ascii.eqb_eq in H. now subst.
  - auto.
Qed.

Lemma span_spec (p : ascii -> bool) (s a b : string) :
  span p s = (a, b) -> s = (a ++ b)%string /\ all_chars p a = true.
Proof.
  revert a b. induction s as [|c s IH]; simpl; intros a b H.
  - injection H as <- <-. now split.
  - destruct (p c) eqn:E.
    + destruct (span p s) as [a' b'].
      injection H as <- <-.
      destruct (IH a' b' eq_refl) as [-> Ha].
      simpl. now rewrite E, Ha.
    + injection H as <- <-. now split.
Qed.

Lemma span_all (p : ascii -> bool) (s : string) :
  all_chars p s = true -> span p s = (s, "").
Proof.
  induction s as [|c s IH]; simpl; [reflexivity|].
  rewrite andb_true_iff. intros [H1 H2]. now rewrite H1, (IH H2).
Qed.

Lemma take_sign_spec (s r : string) (sg : Z) :
  take_sign s = (sg, r) ->
  s = r \/ s = String "-" r \/ s = String "+" r.
Proof.
  destruct s as [|c t]; simpl.
  - intros H. injection H as _ <-. now left.
  - destruct c as [[] [] [] [] [] [] [] []]; intros H;
      injection H as _ <-; auto.
Qed.

Lemma take_sign_digit (c : ascii) (t : string) :
  is_digit c = true -> take_sign (String c t) = (1%Z, String c t).
Proof.
  destruct c as [[] [] [] [] [] [] [] []]; simpl;
    solve [discriminate | reflexivity].
Qed.

Lemma take_fraction_spec (s fp r : string) :
  take_fraction s = (fp, r) ->
  (fp = "" /\ r = s)
  \/ (exists t, s = String "." t /\ span is_digit t = (fp, r)).
Proof.
  destruct s as [|c t]; simpl.
  - intros H. injection H as <- <-. now left.
  - destruct c as [[] [] [] [] [] [] [] []]; intros H;
      solve [ injection H as <- <-; now left
            | right; exists t; now split ].
Qed.

Lemma take_exponent_spec (s : string) (e : Z) :
  take_exponent s = Some e -> all_chars float_char s = true.
Proof.
  destruct s as [|c t]; simpl; [reflexivity|].
  destruct (Ascii.eqb c "e" || Ascii.eqb c "E")%bool eqn:Ec;
    [|discriminate].
  destruct (take_sign t) as [sg t1] eqn:Es.
  destruct (span is_digit t1) as [ds rest] eqn:Ed.
  destruct (negb (is_empty ds) && is_empty rest)%bool eqn:Eb;
    [|discriminate].
  intros _.
  apply andb_true_iff in Eb. destruct Eb as [_ Hrest].
  apply is_empty_true in Hrest. subst rest.
  apply span_spec in Ed. destruct Ed as [Ht1 Hds].
  rewrite string_app_empty in Ht1. subst t1.
  assert (Hc : float_char c = true).
  { unfold float_char. apply orb_true_iff in Ec.
    destruct Ec as [-> | ->]; now rewrite ?orb_true_r. }
  rewrite Hc. simpl.
  assert (Hd : all_chars float_char ds = true).
  { apply (all_chars_impl is_digit); [|exact Hds].
    intros x Hx. unfold float_char. now rewrite Hx. }
  destruct (take_sign_spec _ _ _ Es) as [-> | [-> | ->]]; simpl; exact Hd.
Qed.

End TextFacts.

Section ParseFacts.

Lemma lstrip_contains (c : ascii) (s : string) :
  is_space c = false -> contains_char c s = true ->
  contains_char c (lstrip s) = true.
Proof.
  intros Hc. induction s as [|a s IH]; simpl; [discriminate|].
  destruct (is_space a) eqn:Ea; simpl; [|tauto].
  destruct (Ascii.eqb a c) eqn:E; simpl; [|exact IH].
  apply Ascii.eqb_eq in E. congruence.
Qed.

Lemma rstrip_contains (c : ascii) (s : string) :
  is_space c = false -> contains_char c s = true ->
  contains_char c (rstrip s) = true.
Proof.
  intros Hc. induction s as [|a s IH]; simpl; [discriminate|].
  destruct (Ascii.eqb a c) eqn:E; simpl.
  - intros _. apply Ascii.eqb_eq in E. subst a.
    destruct (rstrip s); [rewrite Hc|]; simpl;
      now rewrite Ascii.eqb_refl.
  - intros H. specialize (IH H).
    destruct (rstrip s); [discriminate IH|].
    cbn [contains_char] in *. now rewrite E.
Qed.

Lemma strip_contains (c : ascii) (s : string) :
  is_space c = false -> contains_char c s = true ->
  contains_char c (strip s) = true.
Proof.
  intros Hc H. unfold strip.
  now apply rstrip_contains, lstrip_contains.
Qed.

Lemma strip_no_space (s : string) :
  all_chars (fun c => negb (is_space c)) s = true -> strip s = s.
Proof.
  intros H. unfold strip.
  assert (Hl : lstrip s = s).
  { destruct s as [|c s]; [reflexivity|]. simpl in *.
    apply andb_true_iff in H. destruct H as [H _].
    apply negb_true_iff in H. now rewrite H. }
  rewrite Hl. clear Hl.
  induction s as [|c s IH]; [reflexivity|]. simpl in *.
  apply andb_true_iff in H. destruct H as [Hc Hs].
  rewrite (IH Hs). apply negb_true_iff in Hc. rewrite Hc.
  now destruct s.
Qed.

(** A text that reads as a number is made of the characters of a
    decimal literal. *)
Lemma float_of_string_alphabet (s : string) (q : Q) :
  float_of_string s = Some q -> all_chars float_char (strip s) = true.
Proof.
  unfold float_of_string.
  destruct (take_sign (strip s)) as [sg s1] eqn:Es.
  destruct (span is_digit s1) as [ip r1] eqn:Ei.
  destruct (take_fraction r1) as [fp r2] eqn:Ef.
  destruct (is_empty ip && is_empty fp)%bool; [discriminate|].
  destruct (take_exponent r2) as [e|] eqn:Ee; [|discriminate].
  intros _.
  apply take_exponent_spec in Ee.
  apply span_spec in Ei. destruct Ei as [Hs1 Hip].
  assert (Hdig : forall x, is_digit x = true -> float_char x = true).
  { intros x Hx. unfold float_char. now rewrite Hx. }
  assert (Hr1 : all_chars float_char r1 = true).
  { destruct (take_fraction_spec _ _ _ Ef) as [[_ ->] | (t & -> & Ht)];
      [exact Ee|].
    apply span_spec in Ht. destruct Ht as [-> Hfp].
    simpl. rewrite all_chars_app, Ee, andb_true_r.
    apply (all_chars_impl is_digit); auto. }
  assert (H1 : all_chars float_char s1 = true).
  { rewrite Hs1, all_chars_app, Hr1, andb_true_r.
    apply (all_chars_impl is_digit); auto. }
  destruct (take_sign_spec _ _ _ Es) as [-> | [-> | ->]]; simpl; exact H1.
Qed.

(** A text with a thousands separator or a currency symbol does not
    read as a number. *)
Lemma float_of_string_separator (s : string) :
  has_separator s = true -> float_of_string s = None.
Proof.
  intros H. destruct (float_of_string s) as [q|] eqn:E; [|reflexivity].
  exfalso. apply float_of_string_alphabet in E.
  unfold has_separator in H. apply orb_true_iff in H.
  destruct H as [H | H];
    apply strip_contains in H; try reflexivity;
    apply (all_chars_contains _ _ _ E) in H; discriminate H.
Qed.

Lemma float_of_string_blank (s : string) :
  is_blank s = true -> float_of_string s = None.
Proof.
  unfold is_blank. intros H. apply is_empty_true in H.
  unfold float_of_string. now rewrite H.
Qed.

Lemma digits_value_app (acc : Z) (a b : string) :
  digits_value acc (a ++ b) = digits_value (digits_value acc a) b.
Proof.
  revert acc. induction a as [|c a IH]; intros acc; simpl; [reflexivity|].
  apply IH.
Qed.

Lemma scale10_fraction (m : Z) (n : nat) :
  scale10 (1 * m) (0 - Z.of_nat n)
  == inject_Z m / inject_Z (10 ^ Z.of_nat n).
Proof.
  unfold scale10. rewrite Z.mul_1_l.
  assert (Hpos : (0 < 10 ^ Z.of_nat n)%Z)
    by (apply Z.pow_pos_nonneg; lia).
  destruct (0 <=? 0 - Z.of_nat n)%Z eqn:E.
  - apply Z.leb_le in E. assert (n = 0%nat) by lia. subst n.
    simpl. rewrite Z.mul_1_r. field.
  - replace (- (0 - Z.of_nat n))%Z with (Z.of_nat n) by lia.
    rewrite Qmake_Qdiv. now rewrite Z2Pos.id.
Qed.

Lemma digit_not_space (c : ascii) :
  (is_digit c || Ascii.eqb c ".")%bool = true -> negb (is_space c) = true.
Proof.
  destruct c as [[] [] [] [] [] [] [] []]; simpl;
    solve [discriminate | reflexivity].
Qed.

Lemma fraction_re_spec (r : string) :
  fraction_re r = true ->
  r = "" \/ exists fp, r = String "." fp /\ fp <> ""
                       /\ all_chars is_digit fp = true.
Proof.
  destruct r as [|c t]; [now left|]. intros H. right.
  assert (Hc : c = "."%char).
  { destruct c as [[] [] [] [] [] [] [] []]; simpl in H;
      solve [discriminate H | reflexivity]. }
  subst c. simpl in H.
  destruct (span is_digit t) as [fp r2] eqn:E.
  apply andb_true_iff in H. destruct H as [Hfp Hr2].
  apply is_empty_true in Hr2. subst r2.
  apply span_spec in E. destruct E as [-> Hd].
  rewrite string_app_empty. exists fp. split; [reflexivity|].
  split; [|exact Hd]. intros ->. discriminate Hfp.
Qed.

(** A text of the form [[0-9]+(\.[0-9]+)?] reads as the number its
    digits spell. *)
Lemma float_of_string_plain (s : string) :
  plain_amount_re s = true ->
  strip_currency s = s
  /\ has_separator s = false
  /\ exists q, float_of_string s = Some q /\ q == decimal_value s.
Proof.
  unfold plain_amount_re.
  destruct (span is_digit s) as [ip r] eqn:Ei.
  intros H. apply andb_true_iff in H. destruct H as [Hip Hr].
  pose proof (span_spec _ _ _ _ Ei) as [Hs Hd].
  assert (Hchars : all_chars (fun c => is_digit c || Ascii.eqb c ".")%bool
                     s = true).
  { rewrite Hs, all_chars_app. apply andb_true_iff. split.
    - apply (all_chars_impl is_digit); [|exact Hd].
      intros c Hc. now rewrite Hc.
    - destruct (fraction_re_spec r Hr) as [-> | (fp & -> & _ & Hfp)];
        [reflexivity|].
      simpl. apply (all_chars_impl is_digit); [|exact Hfp].
      intros c Hc. now rewrite Hc. }
  assert (Hnosep : forall c, (is_digit c || Ascii.eqb c ".")%bool = false ->
                             contains_char c s = false).
  { intros c Hc. destruct (contains_char c s) eqn:E; [|reflexivity].
    rewrite (all_chars_contains _ _ _ Hchars E) in Hc. discriminate Hc. }
  assert (Hrm : forall c, (is_digit c || Ascii.eqb c ".")%bool = false ->
                          remove_char c s = s).
  { intros c Hc. clear - Hchars Hc.
    induction s as [|a s IH]; [reflexivity|]. simpl in *.
    apply andb_true_iff in Hchars. destruct Hchars as [Ha Hs].
    destruct (Ascii.eqb a c) eqn:E.
    - apply Ascii.eqb_eq in E. subst a. congruence.
    - now rewrite (IH Hs). }
  split; [|split].
  - unfold strip_currency. rewrite (Hrm ","%char eq_refl).
    apply (Hrm "$"%char eq_refl).
  - unfold has_separator.
    now rewrite (Hnosep "$"%char eq_refl), (Hnosep ","%char eq_refl).
  - unfold float_of_string, decimal_value.
    rewrite strip_no_space
      by (apply (all_chars_impl _ _ _ digit_not_space Hchars)).
    assert (Hsign : take_sign s = (1%Z, s)).
    { destruct ip as [|c ip]; [discriminate Hip|].
      rewrite Hs. simpl in Hd. apply andb_true_iff in Hd.
      apply take_sign_digit. apply Hd. }
    rewrite Hsign, Ei.
    destruct (take_fraction r) as [fp r2] eqn:Ef.
    assert (Hne : (is_empty ip && is_empty fp)%bool = false).
    { destruct ip; [discriminate Hip | reflexivity]. }
    rewrite Hne.
    assert (Hr2 : r2 = "").
    { destruct (fraction_re_spec r Hr) as [-> | (f & -> & _ & Hf)].
      - simpl in Ef. now injection Ef as _ <-.
      - simpl in Ef. rewrite (span_all _ _ Hf) in Ef.
        now injection Ef as _ <-. }
    subst r2. simpl take_exponent. cbn iota.
    eexists. split; [reflexivity|].
    cbn [fst]. rewrite digits_value_app.
    apply scale10_fraction.
Qed.

(** A text that matches [[$]?[0-9,]+(\.[0-9]+)?] either has a separator
    or currency symbol, or is of the plain form. *)
Lemma amount_re_split (s : string) :
  amount_re s = true ->
  has_separator s = true \/ plain_amount_re s = true.
Proof.
  intros H. destruct (has_separator s) eqn:Hsep; [now left | right].
  unfold has_separator in Hsep. apply orb_false_iff in Hsep.
  destruct Hsep as [Hd Hc].
  assert (Hspan : span is_digit_or_comma s = span is_digit s).
  { clear - Hc. induction s as [|a s IH]; [reflexivity|]. simpl in *.
    apply orb_false_iff in Hc. destruct Hc as [Ha Hs].
    unfold is_digit_or_comma at 1. rewrite Ha, orb_false_r.
    now rewrite (IH Hs). }
  unfold amount_re in H. unfold plain_amount_re.
  destruct s as [|a t]; [exact H|].
  assert (Ha : a <> "$"%char).
  { intros ->. simpl in Hd. discriminate Hd. }
  assert (Hs1 : match String a t with
                | String "$" t' => t'
                | _ => String a t
                end = String a t).
  { destruct a as [[] [] [] [] [] [] [] []]; try reflexivity.
    now contradiction Ha. }
  rewrite Hs1, Hspan in H. exact H.
Qed.

End ParseFacts.

(* ================================================================== *)
(** ** Text with a character foreign to numbers *)

Lemma foreign_char_outside (c : ascii) :
  Reading.foreign_char c = true ->
  float_char c = false /\ is_space c = false.
Proof.
  destruct c as [[] [] [] [] [] [] [] []]; vm_compute; intros H;
    solve [discriminate H | split; reflexivity].
Qed.

Lemma has_foreign_contains (s : string) :
  Reading.has_foreign s = true ->
  exists c, Reading.foreign_char c = true /\ contains_char c s = true.
Proof.
  induction s as [|a s IH]; simpl; [discriminate|].
  rewrite orb_true_iff. intros [H | H].
  - exists a. split; [exact H|]. now rewrite Ascii.eqb_refl.
  - destruct (IH H) as (c & Hc & Hin). exists c. split; [exact Hc|].
    rewrite Hin. apply orb_true_r.
Qed.

(** A text with such a character does not read as a number. *)
Lemma float_of_string_foreign (s : string) :
  Reading.has_foreign s = true -> float_of_string s = None.
Proof.
  intros H. destruct (float_of_string s) as [q|] eqn:E; [|reflexivity].
  exfalso. apply float_of_string_alphabet in E.
  destruct (has_foreign_contains s H) as (c & Hc & Hin).
  destruct (foreign_char_outside c Hc) as [Hf Hsp].
  apply (strip_contains c s Hsp) in Hin.
  apply (all_chars_contains _ _ _ E) in Hin. congruence.
Qed.

Example has_foreign_examples :
  map Reading.has_foreign ["abc"; "n/a"; "12kg"; "$5"; "1,234"]
    = [true; true; true; true; true]
  /\ map Reading.has_foreign
       ["12.50"; "-1e5"; "inf"; "-Infinity"; "nan"; "True"; "false"; " 7 "]
     = [false; false; false; false; false; false; false; false].
Proof. split; reflexivity. Qed.

(* ================================================================== *)
(** ** Loading the ledger file *)

Section Loading.
Import Frame Proc Cells.

Lemma load_frame_rows (raw : list raw_row) (df : list txn) :
  load_frame raw = Some df ->
  Forall2 (fun r x => exists d, to_datetime (raw_date r) = Some d
                                /\ x = load_row d r) raw df.
Proof.
  revert df. induction raw as [|r raw IH]; simpl; intros df H.
  - injection H as <-. constructor.
  - destruct (to_datetime (raw_date r)) as [d|] eqn:Ed; [|discriminate].
    destruct (load_frame raw) as [rows|]; [|discriminate].
    injection H as <-. constructor; [|now apply IH].
    exists d. now split.
Qed.

Lemma load_frame_total (raw : list raw_row) :
  Forall (fun r => to_datetime (raw_date r) <> None) raw ->
  exists df, load_frame raw = Some df.
Proof.
  induction 1 as [|r raw Hr Hall IH]; simpl; [now exists []|].
  destruct IH as [df ->].
  destruct (to_datetime (raw_date r)) as [d|]; [|congruence].
  now eexists.
Qed.

Lemma to_numeric_unreadable (s : string) :
  float_of_string s = None -> to_numeric_coerce (Some s) = NaN.
Proof. intros H. simpl. now rewrite H. Qed.

(** A cell that does not read as a number - absent, blank or
    malformed - loads as 0.0 in the deposit and withdrawal columns and as
    NaN in the balance column. *)
Lemma unreadable_loads_as (c : option string) :
  to_numeric_coerce c = NaN -> loads_as c (Fin 0) NaN.
Proof.
  intros H d r. unfold load_row. simpl.
  repeat split; intros ->; now rewrite H.
Qed.

Lemma readable_loads_as (s : string) (q : Q) :
  float_of_string s = Some q -> loads_as (Some s) (Fin q) (Fin q).
Proof.
  intros H d r. unfold load_row. simpl.
  repeat split; intros ->; simpl; now rewrite H.
Qed.

Lemma blank_cell_nan (c : option string) :
  blank_cell c = true -> to_numeric_coerce c = NaN.
Proof.
  destruct c as [s|]; [|reflexivity]. simpl. intros H.
  now rewrite (float_of_string_blank s H).
Qed.

(** With the file in place, [load_transactions] returns the converted
    frame and touches neither the tree nor the output streams. *)
Lemma load_transactions_returns (p : process) (directory : string)
    (raw : list raw_row) (df : list txn) :
  lookup_csv (joinpath directory csv_name) (csvs p) = Some raw ->
  load_frame raw = Some df ->
  Scripts.load_transactions directory p = (Return df, p).
Proof.
  intros Hf Hl.
  unfold Scripts.load_transactions, bind, path_exists, bind, is_dir,
    is_file, read_csv, ret.
  fold csv_name. rewrite Hf, orb_true_r. cbv beta iota delta [negb].
  rewrite Hf. now rewrite Hl.
Qed.

End Loading.

(** C2, amended.  Loading keeps every row.  In each of them a missing or
    blank deposit or withdrawal cell is the number 0.0, and a missing or
    blank balance cell stays a missing value (NaN): the balance column is
    converted without [fillna(0)].  The module-level script loads the same
    way. *)
Theorem blank_cells_loaded (raw : list Frame.raw_row) (df : list Frame.txn) :
  Frame.load_frame raw = Some df ->
  List.length df = List.length raw
  /\ MockDataset.load raw = Some df
  /\ Forall2
       (fun r x =>
          (Cells.blank_cell (Frame.raw_deposit r) = true ->
             Frame.deposit x = Fin 0)
          /\ (Cells.blank_cell (Frame.raw_withdrawal r) = true ->
                Frame.withdrawal x = Fin 0)
          /\ (Cells.blank_cell (Frame.raw_balance r) = true ->
                Frame.balance x = NaN))
       raw df.
Proof.
  intros H. pose proof (load_frame_rows raw df H) as Hrows.
  split; [symmetry; exact (Forall2_length Hrows)|].
  split; [exact H|].
  eapply Forall2_impl; [|exact Hrows].
  intros r x (d & _ & ->).
  repeat split; intros Hb;
    apply (unreadable_loads_as _ (blank_cell_nan _ Hb) d r); reflexivity.
Qed.

Lemma blank_cells_loaded_witness :
  let raw := [Cells.file_row None (Some " ") None;
              Cells.file_row (Some "12.50") None (Some "87.50")] in
  let df := [Frame.load_row (Some {| Frame.ordinal := 20454;
                                     Frame.nanos := 0 |})
               (Cells.file_row None (Some " ") None);
             Frame.load_row (Some {| Frame.ordinal := 20454;
                                     Frame.nanos := 0 |})
               (Cells.file_row (Some "12.50") None (Some "87.50"))] in
  List.length df = List.length raw
  /\ MockDataset.load raw = Some df
  /\ Forall2
       (fun r x =>
          (Cells.blank_cell (Frame.raw_deposit r) = true ->
             Frame.deposit x = Fin 0)
          /\ (Cells.blank_cell (Frame.raw_withdrawal r) = true ->
                Frame.withdrawal x = Fin 0)
          /\ (Cells.blank_cell (Frame.raw_balance r) = true ->
                Frame.balance x = NaN))
       raw df.
Proof.
  apply (blank_cells_loaded
           [Cells.file_row None (Some " ") None;
            Cells.file_row (Some "12.50") None (Some "87.50")]).
  reflexivity.
Defined.

(** C2 as stated fails on the balance column: a row whose three numeric
    cells are blank loads with deposit 0.0 and withdrawal 0.0 but with a
    balance that is NaN, not 0.0. *)
Lemma blank_balance_stays_nan :
  Cells.blank_cell None = true
  /\ option_map (map (fun x => (Frame.deposit x, Frame.withdrawal x,
                                Frame.balance x)))
       (Frame.load_frame [Cells.file_row None None None])
     = Some [(Fin 0, Fin 0, NaN)]
  /\ NaN <> Fin 0.
Proof. repeat split. discriminate. Qed.

(** C3, amended.  A text that matches [[$]?[0-9,]+(\.[0-9]+)?] either is
    of the plain form [[0-9]+(\.[0-9]+)?] or holds a [","] or ["$"].  In
    the plain form it loads as the base-10 value of its digits (stripping
    would change nothing).  With a separator or currency symbol nothing is
    stripped: the text is coerced to a missing value, 0.0 in the deposit and
    withdrawal columns and NaN in the balance column.  The empty text and an
    absent cell load the same way, as 0.0 and NaN. *)
Theorem amounts_loaded (s : string) :
  amount_re s = true ->
  (has_separator s = true \/ plain_amount_re s = true)
  /\ (plain_amount_re s = true ->
        exists q, float_of_string (strip_currency s) = Some q
                  /\ q == decimal_value s
                  /\ Cells.loads_as (Some s) (Fin q) (Fin q))
  /\ (has_separator s = true -> Cells.loads_as (Some s) (Fin 0) NaN)
  /\ Cells.loads_as (Some "") (Fin 0) NaN
  /\ Cells.loads_as None (Fin 0) NaN.
Proof.
  intros Hre. split; [now apply amount_re_split|]. split; [|split; [|split]].
  - intros Hp.
    destruct (float_of_string_plain s Hp) as (Hstrip & _ & q & Hq & Hv).
    exists q. rewrite Hstrip. split; [exact Hq|]. split; [exact Hv|].
    now apply readable_loads_as.
  - intros Hsep. apply unreadable_loads_as, to_numeric_unreadable.
    now apply float_of_string_separator.
  - now apply unreadable_loads_as.
  - now apply unreadable_loads_as.
Qed.

Lemma amounts_loaded_witness :
  (has_separator "1234.50" = true \/ plain_amount_re "1234.50" = true)
  /\ (plain_amount_re "1234.50" = true ->
        exists q, float_of_string (strip_currency "1234.50") = Some q
                  /\ q == decimal_value "1234.50"
                  /\ Cells.loads_as (Some "1234.50") (Fin q) (Fin q))
  /\ (has_separator "1234.50" = true ->
        Cells.loads_as (Some "1234.50") (Fin 0) NaN)
  /\ Cells.loads_as (Some "") (Fin 0) NaN
  /\ Cells.loads_as None (Fin 0) NaN.
Proof.
  apply (amounts_loaded "1234.50"). reflexivity.
Defined.

(** C3 as stated fails at ["$5"]: the text matches the pattern and with
    the currency symbol removed it reads as 5, yet it loads as 0.0 in the
    deposit column. *)
Lemma currency_text_loads_as_zero :
  amount_re "$5" = true
  /\ float_of_string (strip_currency "$5") = Some (inject_Z 5)
  /\ option_map (map Frame.deposit)
       (Frame.load_frame [Cells.file_row (Some "$5") None None])
     = Some [Fin 0]
  /\ ~ (0 == inject_Z 5).
Proof. repeat split. discriminate. Qed.

(** The same holds with a thousands separator: ["1,234.50"] in the
    withdrawal column loads as 0.0, and the row no longer counts as
    spending. *)
Example separator_text_loads_as_zero :
  option_map (map Frame.withdrawal)
    (Frame.load_frame [Cells.file_row None (Some "1,234.50") None])
  = Some [Fin 0]
  /\ option_map Frame.spending_df
       (Frame.load_frame [Cells.file_row None (Some "1,234.50") None])
     = Some [].
Proof. split; reflexivity. Qed.

(** C4, amended.  A numeric cell never makes the load fail.  A file whose
    dates convert is loaded whatever its numeric cells hold, and
    [load_transactions] returns the frame leaving the directory tree,
    stdout and stderr as they were, so nothing is reported about any cell.
    Each cell that holds a character foreign to numbers - as in ["abc"],
    ["n/a"] or ["12kg"] - is coerced to a missing value: 0.0 in the deposit
    and withdrawal columns, NaN in the balance column. *)
Theorem malformed_cells_coerced (p : Proc.process) (directory : string)
    (raw : list Frame.raw_row) :
  Proc.lookup_csv (Proc.joinpath directory Cells.csv_name) (Proc.csvs p)
    = Some raw ->
  Forall (fun r => Frame.to_datetime (Frame.raw_date r) <> None) raw ->
  exists df,
    Scripts.load_transactions directory p = (Proc.Return df, p)
    /\ Frame.load_frame raw = Some df
    /\ Forall2
         (fun r x =>
            forall s, Reading.has_foreign s = true ->
              (Frame.raw_deposit r = Some s -> Frame.deposit x = Fin 0)
              /\ (Frame.raw_withdrawal r = Some s ->
                    Frame.withdrawal x = Fin 0)
              /\ (Frame.raw_balance r = Some s -> Frame.balance x = NaN))
         raw df.
Proof.
  intros Hf Hd.
  destruct (load_frame_total raw Hd) as [df Hl].
  exists df. split; [now apply load_transactions_returns with raw|].
  split; [exact Hl|].
  eapply Forall2_impl; [|exact (load_frame_rows raw df Hl)].
  intros r x (d & _ & ->) s Hs.
  apply float_of_string_foreign in Hs.
  exact (unreadable_loads_as _ (to_numeric_unreadable s Hs) d r).
Qed.

Lemma malformed_cells_coerced_witness :
  let raw := [Cells.file_row (Some "abc") (Some "n/a") (Some "12kg")] in
  exists df,
    Scripts.load_transactions "/data/jan" (Cells.tree_with raw)
      = (Proc.Return df, Cells.tree_with raw)
    /\ Frame.load_frame raw = Some df
    /\ Forall2
         (fun r x =>
            forall s, Reading.has_foreign s = true ->
              (Frame.raw_deposit r = Some s -> Frame.deposit x = Fin 0)
              /\ (Frame.raw_withdrawal r = Some s ->
                    Frame.withdrawal x = Fin 0)
              /\ (Frame.raw_balance r = Some s -> Frame.balance x = NaN))
         raw df.
Proof.
  apply (malformed_cells_coerced
           (Cells.tree_with
              [Cells.file_row (Some "abc") (Some "n/a") (Some "12kg")])
           "/data/jan").
  - reflexivity.
  - repeat constructor; discriminate.
Defined.

(** The three cells of that row hold a character foreign to numbers, and
    the row loads with deposit 0.0, withdrawal 0.0 and a missing
    balance. *)
Example foreign_cells_loaded :
  map Reading.has_foreign ["abc"; "n/a"; "12kg"] = [true; true; true]
  /\ option_map (map (fun x => (Frame.deposit x, Frame.withdrawal x,
                                Frame.balance x)))
       (Frame.load_frame
          [Cells.file_row (Some "abc") (Some "n/a") (Some "12kg")])
     = Some [(Fin 0, Fin 0, NaN)].
Proof. split; reflexivity. Qed.

(** C4 as stated fails at the cell ["abc"]: it is present, not blank and
    not a number even after stripping, yet the load does not fail - it
    returns a frame in which the deposit is the number 0.0 - and stderr
    stays empty. *)
Lemma malformed_cell_yields_zero :
  Cells.malformed_cell (Some "abc") = true
  /\ (let p := Cells.tree_with [Cells.file_row (Some "abc") None None] in
      let run := Scripts.load_transactions "/data/jan" p in
      match fst run with
      | Proc.Return df => map Frame.deposit df = [Fin 0]
      | _ => False
      end
      /\ Proc.stderr (snd run) = []).
Proof. split; [reflexivity|]. split; reflexivity. Qed.

(* ================================================================== *)
(** ** The entry point *)

(** C8, amended.  When the target directory does not exist, [main] writes
    the line [Error: Directory <path> does not exist] to stderr and ends
    the process through [sys.exit(1)]: nothing is returned, nothing is
    written to stdout and the directory tree is left as it was. *)
Theorem missing_directory_exits (p : Proc.process) (directory : string) :
  Proc.mem_string directory (Proc.dirs p) = false ->
  Proc.lookup_csv directory (Proc.csvs p) = None ->
  Scripts.main directory p =
    (Proc.SysExit 1,
     {| Proc.dirs := Proc.dirs p;
        Proc.csvs := Proc.csvs p;
        Proc.plots := Proc.plots p;
        Proc.stdout := Proc.stdout p;
        Proc.stderr :=
          Proc.stderr p
          ++ [("Error: Directory " ++ directory ++ " does not exist")%string]
     |}).
Proof.
  intros Hd Hf.
  unfold Scripts.main, Proc.bind, Proc.path_exists, Proc.bind, Proc.is_dir,
    Proc.is_file, Proc.ret.
  rewrite Hd, Hf. reflexivity.
Qed.

Lemma missing_directory_exits_witness :
  Scripts.main "/data/jan" Cells.tree_without =
    (Proc.SysExit 1,
     {| Proc.dirs := ["/data"];
        Proc.csvs := [];
        Proc.plots := [];
        Proc.stdout := [];
        Proc.stderr := ["Error: Directory /data/jan does not exist"] |}).
Proof.
  apply (missing_directory_exits Cells.tree_without "/data/jan");
    reflexivity.
Defined.

(** C8 as stated fails on a target that does not exist: the run does not
    return, it leaves through [sys.exit] with status 1, and all it
    produces is a line on stderr. *)
Lemma missing_directory_terminates_process :
  fst (Scripts.main "/data/jan" Cells.tree_without) = Proc.SysExit 1
  /\ fst (Scripts.main "/data/jan" Cells.tree_without) <> Proc.Return tt
  /\ Proc.stdout (snd (Scripts.main "/data/jan" Cells.tree_without)) = []
  /\ Proc.stderr (snd (Scripts.main "/data/jan" Cells.tree_without))
     = ["Error: Directory /data/jan does not exist"].
Proof. repeat split. discriminate. Qed.

(** A directory without the ledger file: the exit comes from within
    [load_transactions], with its own message. *)
Example missing_file_exits :
  fst (Scripts.main "/data/jan" (Scripts.start ["/data/jan"] []))
    = Proc.SysExit 1
  /\ Proc.stderr
       (snd (Scripts.main "/data/jan" (Scripts.start ["/data/jan"] [])))
     = ["Error: /data/jan/agentic_merged_transactions.csv not found"].
Proof. split; reflexivity. Qed.

(** A date that does not convert escapes as an exception. *)
Example bad_date_raises :
  fst (Scripts.main "/data/jan"
         (Cells.tree_with
            [ {| Frame.raw_date := Frame.DateBad "yesterday";
                 Frame.raw_description := Some "cafe";
                 Frame.raw_category := Some "food";
                 Frame.raw_deposit := None;
                 Frame.raw_withdrawal := Some "5";
                 Frame.raw_balance := Some "95";
                 Frame.raw_account_name := Some "checking" |} ]))
    = Proc.Raise Proc.ValueError.
Proof. reflexivity. Qed.

(* ================================================================== *)
(** ** Every group of spending rows has a positive total *)

Section PositiveTotals.
Import Frame.
Context {K : Type} `{Key K}.
Variable key : txn -> option K.

Lemma insert_key_In (k x : K) (l : list K) :
  In x (insert_key k l) -> x = k \/ In x l.
Proof.
  induction l as [|h l IH]; simpl.
  - intros [<- | []]. now left.
  - destruct (key_eqb k h); [now right|].
    destruct (key_ltb k h); simpl.
    + intros [<- | Hx]; [now left | now right].
    + intros [<- | Hx]; [right; now left|].
      destruct (IH Hx) as [-> | Hl]; [now left | right; now right].
Qed.

Lemma group_keys_In (k : K) (ks : list (option K)) :
  In k (group_keys ks) -> In (Some k) ks.
Proof.
  induction ks as [|[k'|] ks IH]; simpl; [tauto| |].
  - intros Hk. destruct (insert_key_In _ _ _ Hk) as [-> | Hl];
      [now left | right; now apply IH].
  - intros Hk. right. now apply IH.
Qed.

Lemma qsum_positive (l : list txn) :
  l <> [] ->
  Forall (fun r => gt0 (withdrawal r) = true) l ->
  0 < qsum (map withdrawal l).
Proof.
  intros Hne Hall. induction Hall as [|r l Hr Hall IH]; [congruence|].
  simpl. destruct (gt0_Fin _ Hr) as (q & -> & Hq).
  destruct l as [|r' l].
  - simpl. now rewrite Qplus_0_r.
  - assert (0 < qsum (map withdrawal (r' :: l))) by (apply IH; discriminate).
    apply (Qlt_trans _ (q + 0)); [now rewrite Qplus_0_r|].
    now apply Qplus_lt_r.
Qed.

(** Each total of a [groupby] over the spending rows is a positive
    number. *)
Lemma spending_totals_positive (df : list txn) (k : K) (v : float64) :
  In (k, v) (groupby_sum key withdrawal (spending_df df)) ->
  exists q, v = Fin q /\ 0 < q.
Proof.
  unfold groupby_sum. rewrite in_map_iff.
  intros (k' & Hkv & Hk). injection Hkv as -> <-.
  eexists. split; [reflexivity|].
  apply group_keys_In, in_map_iff in Hk. destruct Hk as (r & Hr & Hin).
  apply qsum_positive.
  - intros Hnil.
    assert (Hf : In r (filter (has_key key k) (spending_df df))).
    { apply filter_In. split; [exact Hin|].
      unfold has_key. rewrite Hr. now apply key_eqb_eq. }
    rewrite Hnil in Hf. destruct Hf.
  - apply Forall_forall. intros x Hx.
    apply filter_In in Hx. destruct Hx as [Hx _].
    unfold spending_df in Hx. now apply filter_In in Hx.
Qed.

End PositiveTotals.

Lemma qsum_values_positive (l : list (string * float64)) :
  l <> [] ->
  (forall k v, In (k, v) l -> exists q, v = Fin q /\ 0 < q) ->
  0 < qsum (map snd l).
Proof.
  induction l as [|[k v] l IH]; [congruence|].
  intros _ Hall.
  destruct (Hall k v (or_introl eq_refl)) as (q & -> & Hq). simpl.
  destruct l as [|kv l].
  - simpl. now rewrite Qplus_0_r.
  - assert (0 < qsum (map snd (kv :: l))).
    { apply IH; [discriminate|]. intros k' v' Hin.
      apply (Hall k' v'). now right. }
    apply (Qlt_trans _ (q + 0)); [now rewrite Qplus_0_r|].
    now apply Qplus_lt_r.
Qed.

(** With more than eight categories the rest always sums to a positive
    amount, so the pie then has exactly nine entries, the last one being
    ["Other"]. *)
Lemma pie_other_present (df : list Frame.txn) :
  (8 < List.length (Scripts.category_totals false df))%nat ->
  let totals := Scripts.category_totals false df in
  let other := sum (map snd (skipn 8 totals)) in
  gt0 other = true
  /\ Scripts.top_categories df = firstn 8 totals ++ [("Other", other)]
  /\ List.length (Scripts.top_categories df) = 9%nat.
Proof.
  intros Hlen totals other.
  assert (Hpos : gt0 other = true).
  { unfold other, sum. cbn [gt0]. apply Qltb_lt.
    apply qsum_values_positive.
    - intros Hnil.
      assert (Hl : List.length (skipn 8 totals) = 0%nat) by now rewrite Hnil.
      rewrite length_skipn in Hl. unfold totals in Hl. lia.
    - intros k v Hin.
      apply (spending_totals_positive Frame.category df k v).
      assert (Hin' : In (k, v) totals).
      { rewrite <- (firstn_skipn 8 totals). apply in_or_app. now right. }
      unfold totals, Scripts.category_totals, Frame.sort_values in Hin'.
      exact (Permutation_in _ (sort_perm _ _) Hin'). }
  assert (Hpie : Scripts.top_categories df
                 = firstn 8 totals ++ [("Other", other)]).
  { unfold Scripts.top_categories. rewrite top_with_other_cases.
    apply Nat.ltb_lt in Hlen. rewrite Hlen.
    unfold other, totals in Hpos. rewrite Hpos. reflexivity. }
  split; [exact Hpos|]. split; [exact Hpie|].
  rewrite Hpie, length_app, firstn_length_le by (unfold totals; lia).
  reflexivity.
Qed.


Lemma value_leb_amounts {K : Type} (a b : K * float64) (x y : Q) :
  snd a = Fin x -> snd b = Fin y ->
  Frame.value_leb a b = true -> x <= y.
Proof.
  unfold Frame.value_leb. intros -> ->. apply Qle_bool_iff.
Qed.

Lemma sorted_weaken_in {A : Type} (R S : A -> A -> Prop) (l : list A) :
  (forall a b, In a l -> In b l -> R a b -> S a b) ->
  StronglySorted R l -> StronglySorted S l.
Proof.
  intros HRS Hs. induction Hs as [|x l Hs IH Hall]; constructor.
  - apply IH. intros a b Ha Hb. apply HRS; now right.
  - rewrite Forall_forall in *. intros y Hy.
    apply HRS; [now left | now right | now apply Hall].
Qed.





(** Ten categories: the eight largest are kept and the two smallest are
    merged into ["Other"]. *)
Example pie_ten_categories :
  Scripts.top_categories Spending.ten_categories =
    [ ("j", Fin 10); ("i", Fin 9); ("h", Fin 8); ("g", Fin 7); ("f", Fin 6);
      ("e", Fin 5); ("d", Fin 4); ("c", Fin 3); ("Other", Fin 3) ].
Proof. reflexivity. Qed.

(* ================================================================== *)
(** ** The normalizer of the specification

    The engine's [normalize] strips separators and currency symbol before
    it reads the number, and fails on what is left unreadable: this is
    where it differs from the loader of the graph scripts. *)

Section SpecNormalizer.

Lemma normalize_blank (c : option string) :
  Cells.blank_cell c = true -> Engine.normalize c = inr 0.
Proof.
  destruct c as [s|]; simpl; [|reflexivity]. now intros ->.
Qed.

Lemma digit_or_comma_not_space (c : ascii) :
  is_digit_or_comma c = true -> is_space c = false.
Proof.
  destruct c as [[] [] [] [] [] [] [] []]; simpl;
    solve [discriminate | reflexivity].
Qed.

Lemma contains_not_blank (c : ascii) (s : string) :
  is_space c = false -> contains_char c s = true -> is_blank s = false.
Proof.
  intros Hc H. apply (strip_contains c s Hc) in H.
  unfold is_blank. destruct (strip s); [discriminate H | reflexivity].
Qed.

Lemma amount_re_not_blank (s : string) :
  amount_re s = true -> is_blank s = false.
Proof.
  unfold amount_re. intros H.
  set (s1 := match s with String "$" t => t | _ => s end) in H.
  assert (Hsub : forall c, contains_char c s1 = true ->
                           contains_char c s = true).
  { intros c. unfold s1. destruct s as [|a t]; [tauto|].
    destruct a as [[] [] [] [] [] [] [] []]; try tauto.
    intros Hc. simpl. rewrite Hc. apply orb_true_r. }
  destruct (span is_digit_or_comma s1) as [ip r] eqn:E.
  apply andb_true_iff in H. destruct H as [Hip _].
  apply span_spec in E. destruct E as [Hs1 Hall].
  destruct ip as [|c ip]; [discriminate Hip|].
  simpl in Hall. apply andb_true_iff in Hall. destruct Hall as [Hc _].
  apply (contains_not_blank c).
  - now apply digit_or_comma_not_space.
  - apply Hsub. rewrite Hs1. simpl. now rewrite Ascii.eqb_refl.
Qed.

(** On a text that matches [[$]?[0-9,]+(\.[0-9]+)?] the engine's
    normalizer agrees with reading the stripped text, whenever the
    stripped text is a number. *)
Lemma normalize_amount (s : string) (q : Q) :
  amount_re s = true ->
  float_of_string (strip_currency s) = Some q ->
  Engine.normalize (Some s) = inr q.
Proof.
  intros Hre Hq. unfold Engine.normalize.
  now rewrite (amount_re_not_blank s Hre), Hq.
Qed.

Lemma normalize_malformed (s : string) :
  Cells.malformed_cell (Some s) = true ->
  Engine.normalize (Some s) = inl (Engine.Malformed s).
Proof.
  simpl. intros H. apply andb_true_iff in H. destruct H as [Hb Hp].
  apply negb_true_iff in Hb. rewrite Hb.
  now destruct (float_of_string (strip_currency s)).
Qed.

End SpecNormalizer.

Example normalize_examples :
  Engine.normalize (Some "$1,234.50") = inr (123450 # 100)
  /\ Engine.normalize (Some "") = inr 0
  /\ Engine.normalize None = inr 0
  /\ Engine.normalize (Some "abc") = inl (Engine.Malformed "abc").
Proof. repeat split. Qed.

(** A text made of separators alone matches the pattern but strips to
    the empty text, which is not a number. *)
Example normalize_separators_only :
  amount_re "," = true
  /\ strip_currency "," = ""
  /\ Engine.normalize (Some ",") = inl (Engine.Malformed ",").
Proof. repeat split. Qed.

(** A malformed numeric cell aborts the engine's balance check with a
    single diagnostic. *)
Example malformed_cell_aborts_check :
  Engine.check_balance 3
    (Scenarios.ledger [ Scenarios.ledger_row "2026-01-02" "abc" "" "80.00";
                        Scenarios.ledger_row "2026-01-01" "" "" "100.00" ])
  = [ {| Engine.source_identifier := "ledger.csv";
         Engine.row_reference := None;
         Engine.text := Engine.Unparsable "deposit" "abc" |} ].
Proof. reflexivity. Qed.

(* ================================================================== *)
(** ** The index of a grouped result *)

Section KeyOrder.
Import Frame Totals.
Context {K : Type} `{Key K}.
Hypothesis ltb_irrefl : forall a : K, key_ltb a a = false.
Hypothesis ltb_trans :
  forall a b c : K, key_ltb a b = true -> key_ltb b c = true ->
                    key_ltb a c = true.
Hypothesis ltb_connex :
  forall a b : K, key_eqb a b = false -> key_ltb a b = false ->
                  key_ltb b a = true.

Lemma insert_key_In_iff (k x : K) (l : list K) :
  In x (insert_key k l) <-> x = k \/ In x l.
Proof.
  split; [apply insert_key_In|].
  induction l as [|h l IH]; simpl.
  - intros [-> | []]. now left.
  - destruct (key_eqb k h) eqn:E.
    + apply key_eqb_eq in E. subst h.
      intros [-> | Hx]; [now left | exact Hx].
    + destruct (key_ltb k h); simpl.
      * intros [-> | Hx]; [now left | now right].
      * intros [-> | [-> | Hx]]; [right; apply IH; now left | now left |].
        right. apply IH. now right.
Qed.

Lemma insert_key_sorted (k : K) (l : list K) :
  StronglySorted key_lt l -> StronglySorted key_lt (insert_key k l).
Proof.
  induction 1 as [|h l Hs IH Hall]; simpl.
  - constructor; constructor.
  - destruct (key_eqb k h) eqn:E; [now constructor|].
    destruct (key_ltb k h) eqn:L.
    + constructor; [now constructor|].
      constructor; [exact L|].
      eapply Forall_impl; [|exact Hall].
      intros z Hz. exact (ltb_trans _ _ _ L Hz).
    + constructor; [exact IH|].
      rewrite Forall_forall in *. intros z Hz.
      apply insert_key_In_iff in Hz. destruct Hz as [-> | Hz].
      * now apply ltb_connex.
      * now apply Hall.
Qed.

Lemma group_keys_sorted (ks : list (option K)) :
  StronglySorted key_lt (group_keys ks).
Proof.
  induction ks as [|[k|] ks IH]; simpl; [constructor| |exact IH].
  now apply insert_key_sorted.
Qed.

Lemma sorted_keys_NoDup (l : list K) : StronglySorted key_lt l -> NoDup l.
Proof.
  induction 1 as [|h l Hs IH Hall]; constructor; [|exact IH].
  intros Hin. rewrite Forall_forall in Hall.
  specialize (Hall h Hin). unfold key_lt in Hall.
  now rewrite ltb_irrefl in Hall.
Qed.

Lemma group_keys_NoDup (ks : list (option K)) : NoDup (group_keys ks).
Proof. apply sorted_keys_NoDup, group_keys_sorted. Qed.

Lemma group_keys_In_iff (k : K) (ks : list (option K)) :
  In k (group_keys ks) <-> In (Some k) ks.
Proof.
  split; [apply group_keys_In|].
  induction ks as [|[k'|] ks IH]; simpl; [tauto| |].
  - intros [E | Hin]; apply insert_key_In_iff.
    + injection E as ->. now left.
    + right. now apply IH.
  - intros [E | Hin]; [discriminate E | now apply IH].
Qed.

(** *** The group totals add up to the column total *)

Variable key : txn -> option K.
Variable col : txn -> float64.

Lemma qsum_cons (x : float64) (l : list float64) :
  qsum (x :: l) == amount x + qsum l.
Proof. destruct x; simpl; [now rewrite Qplus_0_l | reflexivity]. Qed.

Lemma has_key_unkeyed (r : txn) (k : K) :
  key r = None -> has_key key k r = false.
Proof. intros E. unfold has_key. now rewrite E. Qed.

Lemma groups_skip_unkeyed (r : txn) (df : list txn) (ks : list K) :
  key r = None ->
  map (fun k => (k, sum (map col (filter (has_key key k) (r :: df))))) ks
  = map (fun k => (k, sum (map col (filter (has_key key k) df)))) ks.
Proof.
  intros E. apply map_ext. intros k. simpl.
  now rewrite (has_key_unkeyed r k E).
Qed.

Lemma groups_other_key (r : txn) (k0 : K) (df : list txn) (ks : list K) :
  key r = Some k0 -> ~ In k0 ks ->
  map (fun k => (k, sum (map col (filter (has_key key k) (r :: df))))) ks
  = map (fun k => (k, sum (map col (filter (has_key key k) df)))) ks.
Proof.
  intros E Hnin. apply map_ext_in. intros k Hk. simpl.
  unfold has_key at 1. rewrite E.
  destruct (key_eqb k0 k) eqn:Ek; [|reflexivity].
  apply key_eqb_eq in Ek. subst k. contradiction.
Qed.

Lemma qsum_sum_cons (l : list float64) (t : list float64) :
  qsum (sum l :: t) = qsum l + qsum t.
Proof. reflexivity. Qed.

Lemma groups_add_row (r : txn) (k0 : K) (df : list txn) (ks : list K) :
  key r = Some k0 -> NoDup ks -> In k0 ks ->
  series_total
    (map (fun k => (k, sum (map col (filter (has_key key k) (r :: df))))) ks)
  == amount (col r)
     + series_total
         (map (fun k => (k, sum (map col (filter (has_key key k) df)))) ks).
Proof.
  intros E Hnd Hin. induction Hnd as [|k ks Hnin Hnd IH]; [destruct Hin|].
  unfold series_total in *. cbn [map snd]. rewrite !qsum_sum_cons.
  assert (Hk : has_key key k r = key_eqb k0 k).
  { unfold has_key. now rewrite E. }
  change (filter (has_key key k) (r :: df))
    with (if has_key key k r then r :: filter (has_key key k) df
          else filter (has_key key k) df).
  rewrite Hk.
  destruct (key_eqb k0 k) eqn:Ek.
  - apply key_eqb_eq in Ek. subst k.
    rewrite (groups_other_key r k0 df ks E Hnin).
    cbn [map]. rewrite qsum_cons. ring.
  - destruct Hin as [-> | Hin].
    + assert (Hr : key_eqb k0 k0 = true) by now apply key_eqb_eq.
      congruence.
    + rewrite (IH Hin). ring.
Qed.

Lemma groups_total (df : list txn) (ks : list K) :
  NoDup ks ->
  (forall r k, In r df -> key r = Some k -> In k ks) ->
  series_total
    (map (fun k => (k, sum (map col (filter (has_key key k) df)))) ks)
  == column_total col (keyed key) df.
Proof.
  intros Hnd. induction df as [|r df IH]; intros Hcov.
  - unfold series_total, column_total. simpl.
    clear. induction ks as [|k ks IH]; simpl; [reflexivity|].
    now rewrite IH, Qplus_0_l.
  - assert (Hcov' : forall r' k, In r' df -> key r' = Some k -> In k ks).
    { intros r' k Hr'. apply Hcov. now right. }
    specialize (IH Hcov').
    unfold column_total in *.
    change (filter (keyed key) (r :: df))
      with (if keyed key r then r :: filter (keyed key) df
            else filter (keyed key) df).
    unfold keyed at 1.
    destruct (key r) as [k0|] eqn:E.
    + rewrite (groups_add_row r k0 df ks E Hnd
                 (Hcov r k0 (or_introl eq_refl) E)).
      rewrite IH. cbn [map]. now rewrite qsum_cons.
    + now rewrite (groups_skip_unkeyed r df ks E).
Qed.

(** The totals of a [groupby(key)[col].sum()] add up to the sum of the
    column over the rows that have a key. *)
Lemma groupby_sum_total (df : list txn) :
  series_total (groupby_sum key col df) == column_total col (keyed key) df.
Proof.
  unfold groupby_sum. apply groups_total.
  - apply group_keys_NoDup.
  - intros r k Hr Hk. apply group_keys_In_iff.
    rewrite <- Hk. now apply in_map.
Qed.

Lemma groupby_sum_keys (df : list txn) :
  map fst (groupby_sum key col df) = group_keys (map key df).
Proof.
  unfold groupby_sum. rewrite map_map. simpl. apply map_id.
Qed.

End KeyOrder.

(* ================================================================== *)
(** ** The two key orders in use: dates and texts *)

Section KeyInstances.

Lemma Z_ltb_irrefl (a : Z) : key_ltb a a = false.
Proof. apply Z.ltb_irrefl. Qed.

Lemma Z_ltb_trans (a b c : Z) :
  key_ltb a b = true -> key_ltb b c = true -> key_ltb a c = true.
Proof. simpl. rewrite !Z.ltb_lt. lia. Qed.

Lemma Z_ltb_connex (a b : Z) :
  key_eqb a b = false -> key_ltb a b = false -> key_ltb b a = true.
Proof. simpl. rewrite Z.eqb_neq, Z.ltb_ge, Z.ltb_lt. lia. Qed.

Lemma ascii_compare_refl (c : ascii) : Ascii.compare c c = Eq.
Proof. apply N.compare_refl. Qed.

Lemma string_compare_refl (s : string) : String.compare s s = Eq.
Proof.
  induction s as [|c s IH]; simpl; [reflexivity|].
  now rewrite ascii_compare_refl.
Qed.

Lemma string_compare_lt_trans (a b c : string) :
  String.compare a b = Lt -> String.compare b c = Lt ->
  String.compare a c = Lt.
Proof.
  revert b c. induction a as [|x a IH]; intros [|y b] [|z c]; simpl;
    try discriminate; try reflexivity.
  destruct (Ascii.compare x y) eqn:Exy; try discriminate;
    destruct (Ascii.compare y z) eqn:Eyz; try discriminate; intros H1 H2.
  - apply Ascii.compare_eq_iff in Exy, Eyz. subst y z.
    rewrite ascii_compare_refl. now apply IH with b.
  - apply Ascii.compare_eq_iff in Exy. subst y. now rewrite Eyz.
  - apply Ascii.compare_eq_iff in Eyz. subst z. now rewrite Exy.
  - unfold Ascii.compare in *. rewrite N.compare_lt_iff in Exy, Eyz.
    assert (E : (N_of_ascii x ?= N_of_ascii z)%N = Lt).
    { apply N.compare_lt_iff. now apply N.lt_trans with (N_of_ascii y). }
    now rewrite E.
Qed.

Lemma string_ltb_irrefl (a : string) : key_ltb a a = false.
Proof. simpl. unfold String.ltb. now rewrite string_compare_refl. Qed.

Lemma string_ltb_trans (a b c : string) :
  key_ltb a b = true -> key_ltb b c = true -> key_ltb a c = true.
Proof.
  simpl. unfold String.ltb.
  destruct (String.compare a b) eqn:E1; try discriminate.
  destruct (String.compare b c) eqn:E2; try discriminate.
  now rewrite (string_compare_lt_trans a b c E1 E2).
Qed.

Lemma string_ltb_connex (a b : string) :
  key_eqb a b = false -> key_ltb a b = false -> key_ltb b a = true.
Proof.
  simpl. unfold String.ltb. rewrite (String.compare_antisym b a).
  intros Hne. apply String.eqb_neq in Hne.
  destruct (String.compare a b) eqn:E; try discriminate; [|reflexivity].
  apply String.compare_eq_iff in E. contradiction.
Qed.

End KeyInstances.

(* ================================================================== *)
(** ** Sums of a Series *)

Section SeriesSums.
Import Frame Totals.

Lemma qsum_app (a b : list float64) : qsum (a ++ b) == qsum a + qsum b.
Proof.
  induction a as [|x a IH]; simpl; [now rewrite Qplus_0_l|].
  destruct x; [exact IH | rewrite IH; ring].
Qed.

Lemma qsum_perm (a b : list float64) :
  Permutation a b -> qsum a == qsum b.
Proof.
  induction 1 as [|x a b Hp IH|x y a|a b c H1 IH1 H2 IH2].
  - reflexivity.
  - rewrite !qsum_cons. now rewrite IH.
  - rewrite !qsum_cons. ring.
  - now rewrite IH1.
Qed.

Lemma series_total_perm {K : Type} (a b : list (K * float64)) :
  Permutation a b -> series_total a == series_total b.
Proof. intros Hp. apply qsum_perm. now apply Permutation_map. Qed.

Lemma series_total_app {K : Type} (a b : list (K * float64)) :
  series_total (a ++ b) == series_total a + series_total b.
Proof. unfold series_total. rewrite map_app. apply qsum_app. Qed.

Lemma sort_values_perm {K : Type} (asc : bool) (s : list (K * float64)) :
  Permutation (sort_values asc s) s.
Proof. unfold sort_values. destruct asc; apply sort_perm. Qed.

Lemma value_leb_total {K : Type} (a b : K * float64) :
  value_leb a b = true \/ value_leb b a = true.
Proof.
  unfold value_leb.
  destruct (snd a) as [|x], (snd b) as [|y]; auto.
  rewrite !Qle_bool_iff.
  destruct (Qlt_le_dec x y) as [Hlt | Hle];
    [left; now apply Qlt_le_weak | now right].
Qed.

Lemma value_leb_trans {K : Type} (a b c : K * float64) :
  value_leb a b = true -> value_leb b c = true -> value_leb a c = true.
Proof.
  unfold value_leb.
  destruct (snd a) as [|x], (snd b) as [|y], (snd c) as [|z];
    try discriminate; auto.
  rewrite !Qle_bool_iff. intros H1 H2. exact (Qle_trans _ _ _ H1 H2).
Qed.

Lemma skipn_suffix {A : Type} (n : nat) (l : list A) :
  exists dropped, l = dropped ++ skipn n l /\ dropped = firstn n l.
Proof. exists (firstn n l). now rewrite firstn_skipn. Qed.

Lemma sorted_skipn {A : Type} (R : A -> A -> Prop) (n : nat) (l : list A) :
  StronglySorted R l -> StronglySorted R (skipn n l).
Proof.
  intros Hs. revert n. induction Hs as [|x l Hs IH Hall]; intros [|n];
    simpl; try constructor; auto.
Qed.

End SeriesSums.

(** X1.  The wedges of the category pie add up to the withdrawals of all
    spending rows that have a category: merging the tail into ["Other"]
    loses nothing. *)
Theorem pie_accounts_for_all_spending (df : list Frame.txn) :
  Totals.series_total (Scripts.top_categories df)
  == Totals.column_total Frame.withdrawal (Totals.keyed Frame.category)
       (Frame.spending_df df).
Proof.
  rewrite <- (groupby_sum_total string_ltb_irrefl string_ltb_trans
                string_ltb_connex Frame.category Frame.withdrawal).
  rewrite <- (series_total_perm _ _
                (sort_values_perm false
                   (Frame.groupby_sum Frame.category Frame.withdrawal
                      (Frame.spending_df df)))).
  fold (Scripts.category_totals false df).
  destruct (Nat.ltb_spec 8 (List.length (Scripts.category_totals false df)))
    as [Hgt | Hle].
  - destruct (pie_other_present df Hgt) as (_ & -> & _).
    rewrite series_total_app.
    rewrite <- (firstn_skipn 8 (Scripts.category_totals false df)) at 3.
    rewrite series_total_app. unfold Totals.series_total at 2. simpl.
    unfold Totals.series_total. ring.
  - unfold Scripts.top_categories. rewrite top_with_other_cases.
    apply Nat.ltb_ge in Hle. rewrite Hle. reflexivity.
Qed.

(** X2.  The top-merchants chart shows at most 15 merchants: the last
    entries of the merchant totals sorted by increasing amount.  Their
    amounts are in increasing order, each is a positive spending total, and
    the amount of a merchant left out is at most the amount of any merchant
    shown. *)
Theorem top_merchants_largest (df : list Frame.txn) :
  let sorted := Frame.sort_values true (Scripts.merchant_totals df) in
  let shown := Scripts.top_merchants df in
  let dropped := firstn (List.length sorted - 15) sorted in
  (List.length shown <= 15)%nat
  /\ sorted = dropped ++ shown
  /\ Permutation sorted (Scripts.merchant_totals df)
  /\ StronglySorted
       (fun a b => exists x y, snd a = Fin x /\ snd b = Fin y /\ x <= y)
       shown
  /\ (forall a b, In a dropped -> In b shown ->
        exists x y, snd a = Fin x /\ snd b = Fin y /\ x <= y)
  /\ (forall k v, In (k, v) shown -> exists q, v = Fin q /\ 0 < q).
Proof.
  intros sorted shown dropped.
  assert (Hs : StronglySorted (fun a b => Frame.value_leb a b = true) sorted).
  { apply sort_sorted; [apply value_leb_total | apply value_leb_trans]. }
  assert (Hshown : shown = skipn (List.length sorted - 15) sorted)
    by reflexivity.
  assert (Hpos : forall a, In a sorted -> exists q, snd a = Fin q /\ 0 < q).
  { intros [k v] Hin. apply (Permutation_in _ (sort_perm _ _)) in Hin.
    exact (spending_totals_positive Frame.description df k v Hin). }
  assert (Hle : forall a b, In a sorted -> In b sorted ->
                  Frame.value_leb a b = true ->
                  exists x y, snd a = Fin x /\ snd b = Fin y /\ x <= y).
  { intros a b Ha Hb Hab.
    destruct (Hpos a Ha) as (x & Hx & _). destruct (Hpos b Hb) as (y & Hy & _).
    exists x, y. split; [exact Hx|]. split; [exact Hy|].
    exact (value_leb_amounts a b x y Hx Hy Hab). }
  assert (Hsplit : sorted = dropped ++ shown).
  { rewrite Hshown. unfold dropped. now rewrite firstn_skipn. }
  split; [|split; [|split; [|split; [|split]]]].
  - rewrite Hshown, length_skipn. lia.
  - exact Hsplit.
  - apply sort_perm.
  - rewrite Hshown. apply sorted_skipn.
    exact (sorted_weaken_in _ _ sorted Hle Hs).
  - intros a b Ha Hb.
    apply Hle.
    + rewrite Hsplit. apply in_or_app. now left.
    + rewrite Hsplit. apply in_or_app. now right.
    + rewrite Hshown in Hb.
      exact (sorted_cut Frame.value_leb sorted _ a b Hs Ha Hb).
  - intros k v Hin. apply (Hpos (k, v)).
    rewrite Hsplit. apply in_or_app. now right.
Qed.

(** X3.  The spending-by-category bar chart has one bar per category
    that occurs in a spending row: the bars are in increasing order of
    amount, no category appears twice, every bar is strictly positive, and
    together they add up to the withdrawals of the categorized spending
    rows. *)
Theorem category_bars (df : list Frame.txn) :
  let bars := Scripts.category_totals true df in
  StronglySorted (fun a b => Frame.value_leb a b = true) bars
  /\ NoDup (map fst bars)
  /\ (forall c, In c (map fst bars) <->
                exists r, In r (Frame.spending_df df)
                          /\ Frame.category r = Some c)
  /\ (forall k v, In (k, v) bars -> exists q, v = Fin q /\ 0 < q)
  /\ Totals.series_total bars
     == Totals.column_total Frame.withdrawal (Totals.keyed Frame.category)
          (Frame.spending_df df).
Proof.
  intros bars.
  set (grouped := Frame.groupby_sum Frame.category Frame.withdrawal
                    (Frame.spending_df df)).
  assert (Hp : Permutation bars grouped) by apply sort_perm.
  assert (Hk : map fst grouped
               = Frame.group_keys (map Frame.category (Frame.spending_df df)))
    by apply groupby_sum_keys.
  split; [|split; [|split; [|split]]].
  - apply sort_sorted; [apply value_leb_total | apply value_leb_trans].
  - apply (Permutation_NoDup (l := map fst grouped)).
    + apply Permutation_map. now symmetry.
    + rewrite Hk. apply (group_keys_NoDup string_ltb_irrefl
                           string_ltb_trans string_ltb_connex).
  - intros c. split.
    + intros Hc.
      apply (Permutation_in _ (Permutation_map fst Hp)) in Hc.
      rewrite Hk in Hc. apply group_keys_In, in_map_iff in Hc.
      destruct Hc as (r & Hr & Hin). now exists r.
    + intros (r & Hin & Hr).
      apply (Permutation_in _ (Permutation_map fst (Permutation_sym Hp))).
      rewrite Hk.
      apply group_keys_In_iff.
      rewrite <- Hr. now apply in_map.
  - intros k v Hin. apply (Permutation_in _ Hp) in Hin.
    exact (spending_totals_positive Frame.category df k v Hin).
  - rewrite (series_total_perm _ _ Hp).
    apply (groupby_sum_total string_ltb_irrefl string_ltb_trans
             string_ltb_connex).
Qed.

(** X6.  The Expenses bar of the income-versus-expenses chart sums the
    whole withdrawal column, negative entries included, so it never
    exceeds the spending total the other charts are built on (the sum over
    the rows with a withdrawal above 0), and the two agree when no
    withdrawal is negative.  The Net bar is income minus expenses. *)
Theorem expenses_bar_at_most_spending (df : list Frame.txn) :
  let '(total_income, total_expenses, net_amount) :=
    Scripts.income_vs_expenses df in
  total_expenses
  <= Totals.column_total Frame.withdrawal
       (fun r => gt0 (Frame.withdrawal r)) df
  /\ (Forall (fun r => 0 <= Totals.amount (Frame.withdrawal r)) df ->
      total_expenses
      == Totals.column_total Frame.withdrawal
           (fun r => gt0 (Frame.withdrawal r)) df)
  /\ net_amount = total_income - total_expenses.
Proof.
  unfold Scripts.income_vs_expenses, Totals.column_total.
  split; [|split; [|reflexivity]].
  - induction df as [|r df IH]; [simpl; apply Qle_refl|].
    cbn [map filter].
    destruct (Frame.withdrawal r) as [|q] eqn:E; cbn [gt0].
    + exact IH.
    + destruct (Qltb 0 q) eqn:Hq; cbn [map qsum]; rewrite ?E; cbn [qsum].
      * now apply Qplus_le_r.
      * apply Qltb_ge in Hq.
        rewrite <- (Qplus_0_l (qsum (map Frame.withdrawal (filter _ df)))).
        now apply Qplus_le_compat.
  - induction 1 as [|r df Hr Hall IH]; [reflexivity|].
    cbn [map filter].
    destruct (Frame.withdrawal r) as [|q] eqn:E; cbn [gt0].
    + exact IH.
    + destruct (Qltb 0 q) eqn:Hq; cbn [map qsum]; rewrite ?E; cbn [qsum].
      * now rewrite IH.
      * apply Qltb_ge in Hq. simpl in Hr.
        assert (Hz : q == 0) by now apply Qle_antisym.
        rewrite Hz, IH. ring.
Qed.

(* ================================================================== *)
(** ** Spending per day *)

Section DailySpending.
Import Frame Totals Shown.

Lemma sort_sorted_id {A : Type} (leb : A -> A -> bool) (l : list A) :
  StronglySorted (fun a b => leb a b = true) l -> sort leb l = l.
Proof.
  induction 1 as [|x l Hs IH Hall]; [reflexivity|].
  simpl. rewrite IH. destruct l as [|y l]; [reflexivity|].
  simpl. apply Forall_inv in Hall. now rewrite Hall.
Qed.

Lemma sorted_map_fst {A : Type} (R : Z -> Z -> Prop)
    (S : Z * A -> Z * A -> Prop) (s : list (Z * A)) :
  (forall a b, R (fst a) (fst b) -> S a b) ->
  StronglySorted R (map fst s) -> StronglySorted S s.
Proof.
  intros HRS. induction s as [|x s IH]; intros Hs; [constructor|].
  simpl in Hs. apply StronglySorted_inv in Hs. destruct Hs as [Hs Hall].
  constructor; [now apply IH|].
  rewrite Forall_forall in *. intros y Hy. apply HRS, Hall.
  now apply in_map.
Qed.

Lemma sorted_weaken {A : Type} (R S : A -> A -> Prop) (l : list A) :
  (forall a b, R a b -> S a b) -> StronglySorted R l -> StronglySorted S l.
Proof.
  intros HRS. induction 1 as [|x l Hs IH Hall]; constructor; [exact IH|].
  eapply Forall_impl; [|exact Hall]. intros y. apply HRS.
Qed.

Lemma daily_keys_sorted (df : list txn) :
  StronglySorted Z.lt
    (map fst (groupby_sum date_only withdrawal (spending_df df))).
Proof.
  rewrite groupby_sum_keys.
  pose proof (group_keys_sorted Z_ltb_trans Z_ltb_connex
                (map date_only (spending_df df))) as Hs.
  apply (sorted_weaken key_lt); [|exact Hs].
  intros a b Hab. now apply Z.ltb_lt.
Qed.

(** The grouped result is already in date order: [sort_index] leaves it
    as it is. *)
Lemma daily_spending_grouped (df : list txn) :
  Scripts.daily_spending df
  = groupby_sum date_only withdrawal (spending_df df).
Proof.
  unfold Scripts.daily_spending, Scripts.sort_index.
  apply sort_sorted_id.
  apply (sorted_map_fst Z.lt); [|apply daily_keys_sorted].
  intros a b Hab. apply Z.leb_le. lia.
Qed.

Lemma cumsum_keys {K : Type} (acc : Q) (s : list (K * float64)) :
  map fst (cumsum_from acc s) = map fst s.
Proof.
  revert acc. induction s as [|[k [|q]] s IH]; intros acc; simpl;
    [reflexivity| |]; now rewrite IH.
Qed.

Lemma cumsum_increasing {K : Type} (s : list (K * float64)) :
  (forall k v, In (k, v) s -> exists q, v = Fin q /\ 0 < q) ->
  forall acc,
    Forall (float_lt (Fin acc)) (map snd (cumsum_from acc s))
    /\ StronglySorted float_lt (map snd (cumsum_from acc s)).
Proof.
  induction s as [|[k v] s IH]; intros Hpos acc.
  - split; constructor.
  - destruct (Hpos k v (or_introl eq_refl)) as (q & -> & Hq).
    assert (Hpos' : forall k' v', In (k', v') s ->
                                  exists q', v' = Fin q' /\ 0 < q').
    { intros k' v' Hin. apply (Hpos k' v'). now right. }
    destruct (IH Hpos' (acc + q)) as [Hall Hs].
    assert (Hstep : acc < acc + q).
    { rewrite <- (Qplus_0_r acc) at 1. now apply Qplus_lt_r. }
    cbn [cumsum_from map snd]. split.
    + constructor; [exact Hstep|].
      eapply Forall_impl; [|exact Hall].
      intros [|x]; simpl; [tauto|]. intros Hx.
      now apply Qlt_trans with (acc + q).
    + constructor; assumption.
Qed.

Lemma last_cons_default {A : Type} (e d : A) (t : list A) :
  last (e :: t) d = last t e.
Proof.
  revert e d. induction t as [|x t IH]; intros e d; [reflexivity|].
  change (last (e :: x :: t) d) with (last (x :: t) d).
  rewrite IH. symmetry. apply IH.
Qed.

Lemma cumsum_last {K : Type} (s : list (K * float64)) :
  (forall k v, In (k, v) s -> exists q, v = Fin q /\ 0 < q) ->
  forall acc,
    amount (match cumsum_from acc s with
            | [] => Fin acc
            | e :: t => snd (last t e)
            end) == acc + series_total s.
Proof.
  unfold series_total.
  induction s as [|[k v] s IH]; intros Hpos acc.
  - simpl. now rewrite Qplus_0_r.
  - destruct (Hpos k v (or_introl eq_refl)) as (q & -> & Hq).
    assert (Hpos' : forall k' v', In (k', v') s ->
                                  exists q', v' = Fin q' /\ 0 < q').
    { intros k' v' Hin. apply (Hpos k' v'). now right. }
    specialize (IH Hpos' (acc + q)).
    cbn [cumsum_from map snd qsum].
    destruct (cumsum_from (acc + q) s) as [|e t] eqn:E.
    + simpl in *. rewrite IH. ring.
    + rewrite last_cons_default, IH. ring.
Qed.

End DailySpending.

Lemma cumulative_total_spent (df : list Frame.txn) :
  Totals.amount (Shown.cumulative_total df)
  == Totals.column_total Frame.withdrawal (Totals.keyed Frame.date_only)
       (Frame.spending_df df).
Proof.
  assert (Hpos : forall k v,
             In (k, v) (Frame.groupby_sum Frame.date_only Frame.withdrawal
                          (Frame.spending_df df)) ->
             exists q, v = Fin q /\ 0 < q).
  { intros k v. apply spending_totals_positive. }
  unfold Shown.cumulative_total, Scripts.cumulative.
  rewrite daily_spending_grouped. unfold Frame.cumsum.
  pose proof (cumsum_last _ Hpos 0) as Hl.
  rewrite Qplus_0_l in Hl.
  rewrite <- (groupby_sum_total Z_ltb_irrefl Z_ltb_trans Z_ltb_connex
                Frame.date_only Frame.withdrawal).
  rewrite <- Hl.
  destruct (Frame.cumsum_from 0 _); reflexivity.
Qed.

(** X4.  The cumulative-spending curve has one point per date that has
    spending, in strictly increasing date order, and it rises strictly
    from point to point.  Its last value - the total in the chart title -
    is the sum of the withdrawals of all spending rows that have a date
    (0 when there is none). *)
Theorem cumulative_curve (df : list Frame.txn) :
  let curve := Scripts.cumulative df in
  StronglySorted Z.lt (map fst curve)
  /\ (forall d, In d (map fst curve) <->
                exists r, In r (Frame.spending_df df)
                          /\ Frame.date_only r = Some d)
  /\ StronglySorted Shown.float_lt (map snd curve)
  /\ Forall (Shown.float_lt (Fin 0)) (map snd curve)
  /\ Totals.amount (Shown.cumulative_total df)
     == Totals.column_total Frame.withdrawal (Totals.keyed Frame.date_only)
          (Frame.spending_df df).
Proof.
  intros curve.
  assert (Hc : curve = Frame.cumsum
                         (Frame.groupby_sum Frame.date_only Frame.withdrawal
                            (Frame.spending_df df))).
  { unfold curve, Scripts.cumulative. now rewrite daily_spending_grouped. }
  assert (Hpos : forall k v,
             In (k, v) (Frame.groupby_sum Frame.date_only Frame.withdrawal
                          (Frame.spending_df df)) ->
             exists q, v = Fin q /\ 0 < q).
  { intros k v. apply spending_totals_positive. }
  split; [|split; [|split; [|split]]].
  - rewrite Hc. unfold Frame.cumsum. rewrite cumsum_keys.
    apply daily_keys_sorted.
  - intros d. rewrite Hc. unfold Frame.cumsum.
    rewrite cumsum_keys, groupby_sum_keys, group_keys_In_iff, in_map_iff.
    split; intros (r & H1 & H2); exists r; tauto.
  - rewrite Hc. apply (cumsum_increasing _ Hpos 0).
  - rewrite Hc. apply (cumsum_increasing _ Hpos 0).
  - apply cumulative_total_spent.
Qed.

(* ================================================================== *)
(** ** Spending per weekday *)

Section Weekdays.
Import Frame Totals.

Lemma weekday_order_NoDup : NoDup weekday_order.
Proof.
  unfold weekday_order.
  repeat (constructor; [simpl; intuition discriminate|]). constructor.
Qed.

Lemma day_name_in_order (t : timestamp) : In (day_name t) weekday_order.
Proof.
  unfold day_name. apply nth_In.
  assert (0 <= (ordinal t + 3) mod 7 < 7)%Z by (apply Z.mod_pos_bound; lia).
  change (List.length weekday_order) with 7%nat. lia.
Qed.

Lemma lookup_total_absent (k : string) (s : list (string * float64)) :
  ~ In k (map fst s) -> lookup_total k s = NaN.
Proof.
  induction s as [|[k' v] s IH]; simpl; [reflexivity|].
  intros Hn. destruct (String.eqb k' k) eqn:E.
  - apply String.eqb_eq in E. subst. exfalso. apply Hn. now left.
  - apply IH. intros Hin. apply Hn. now right.
Qed.

Lemma amount_fillna (x : float64) : amount (fillna 0 x) = amount x.
Proof. now destruct x. Qed.

Lemma series_total_reindex (order : list string)
    (s : list (string * float64)) :
  series_total (reindex_fill0 order s)
  = qsum (map (fun k => fillna 0 (lookup_total k s)) order).
Proof.
  unfold series_total, reindex_fill0. now rewrite map_map.
Qed.

Lemma reindex_other (k : string) (v : float64)
    (s : list (string * float64)) (order : list string) :
  ~ In k order ->
  series_total (reindex_fill0 order ((k, v) :: s))
  == series_total (reindex_fill0 order s).
Proof.
  rewrite !series_total_reindex.
  induction order as [|k0 order IH]; intros Hn; [reflexivity|].
  cbn [map]. rewrite !qsum_cons.
  rewrite IH by (intros Hin; apply Hn; now right).
  cbn [lookup_total].
  destruct (String.eqb k k0) eqn:E; [|reflexivity].
  apply String.eqb_eq in E. subst. exfalso. apply Hn. now left.
Qed.

Lemma reindex_add (k : string) (v : float64)
    (s : list (string * float64)) (order : list string) :
  ~ In k (map fst s) -> NoDup order -> In k order ->
  series_total (reindex_fill0 order ((k, v) :: s))
  == amount v + series_total (reindex_fill0 order s).
Proof.
  intros Hk Hnd Hin.
  induction Hnd as [|k0 order Hn0 Hnd IH]; [destruct Hin|].
  rewrite !series_total_reindex. cbn [map]. rewrite !qsum_cons.
  rewrite <- !series_total_reindex.
  cbn [lookup_total].
  destruct (String.eqb k k0) eqn:E.
  - apply String.eqb_eq in E. subst k0.
    rewrite (reindex_other k v s order Hn0).
    rewrite (lookup_total_absent k s Hk), !amount_fillna. simpl. ring.
  - destruct Hin as [-> | Hin];
      [rewrite String.eqb_refl in E; discriminate E|].
    rewrite (IH Hin). ring.
Qed.

Lemma reindex_total (order : list string) (s : list (string * float64)) :
  NoDup order -> NoDup (map fst s) ->
  (forall k, In k (map fst s) -> In k order) ->
  series_total (reindex_fill0 order s) == series_total s.
Proof.
  intros Hnd. induction s as [|[k v] s IH]; intros Hs Hsub.
  - rewrite series_total_reindex. unfold series_total. simpl.
    clear. induction order as [|k order IH]; simpl; [reflexivity|].
    now rewrite IH, Qplus_0_l.
  - simpl in Hs. apply NoDup_cons_iff in Hs. destruct Hs as [Hk Hs].
    rewrite (reindex_add k v s order Hk Hnd (Hsub k (or_introl eq_refl))).
    rewrite IH; [|exact Hs|intros k' Hk'; apply Hsub; now right].
    unfold series_total. cbn [map snd]. now rewrite qsum_cons.
Qed.

Lemma weekday_keyed (df : list txn) :
  filter (keyed weekday) df = filter (keyed date_only) df.
Proof.
  apply filter_ext. intros r. unfold keyed, weekday, date_only.
  now destruct (date r).
Qed.

End Weekdays.

(** X5.  The weekday chart always has the seven bars Monday to Sunday in
    this order, none of them negative or missing.  The bars add up to the
    withdrawals of all spending rows that have a date: no spending is lost
    by the reindexing, and the sum is the total that the cumulative chart
    ends on. *)
Theorem weekday_bars (df : list Frame.txn) :
  let bars := Scripts.weekday_totals df in
  map fst bars = Frame.weekday_order
  /\ (forall k v, In (k, v) bars -> exists q, v = Fin q /\ 0 <= q)
  /\ Totals.series_total bars
     == Totals.column_total Frame.withdrawal (Totals.keyed Frame.date_only)
          (Frame.spending_df df)
  /\ Totals.series_total bars == Totals.amount (Shown.cumulative_total df).
Proof.
  intros bars.
  set (grouped := Frame.groupby_sum Frame.weekday Frame.withdrawal
                    (Frame.spending_df df)).
  assert (Htotal : Totals.series_total bars
                   == Totals.column_total Frame.withdrawal
                        (Totals.keyed Frame.date_only) (Frame.spending_df df)).
  { unfold bars, Scripts.weekday_totals. fold grouped.
    rewrite reindex_total.
    - unfold grouped.
      rewrite (groupby_sum_total string_ltb_irrefl string_ltb_trans
                 string_ltb_connex).
      unfold Totals.column_total. now rewrite weekday_keyed.
    - apply weekday_order_NoDup.
    - unfold grouped. rewrite groupby_sum_keys.
      apply (group_keys_NoDup string_ltb_irrefl string_ltb_trans
               string_ltb_connex).
    - intros k Hk. unfold grouped in Hk. rewrite groupby_sum_keys in Hk.
      apply group_keys_In, in_map_iff in Hk.
      destruct Hk as (r & Hr & _). unfold Frame.weekday in Hr.
      destruct (Frame.date r) as [t|]; [|discriminate Hr].
      injection Hr as <-. apply day_name_in_order. }
  split; [|split; [|split]].
  - unfold bars, Scripts.weekday_totals, Frame.reindex_fill0.
    rewrite map_map. apply map_id.
  - intros k v Hin. unfold bars, Scripts.weekday_totals,
      Frame.reindex_fill0 in Hin. fold grouped in Hin.
    apply in_map_iff in Hin. destruct Hin as (k' & E & _).
    injection E as -> <-.
    assert (Hl : forall s : list (string * float64),
               (forall k0 v0, In (k0, v0) s ->
                              exists q, v0 = Fin q /\ 0 < q) ->
               exists q, fillna 0 (Frame.lookup_total k s) = Fin q /\ 0 <= q).
    { induction s as [|[k0 v0] s IH]; intros Hpos.
      - exists 0. split; [reflexivity | apply Qle_refl].
      - simpl. destruct (String.eqb k0 k).
        + destruct (Hpos k0 v0 (or_introl eq_refl)) as (q & -> & Hq).
          exists q. split; [reflexivity | now apply Qlt_le_weak].
        + apply IH. intros k1 v1 H1. apply (Hpos k1 v1). now right. }
    apply Hl. intros k0 v0.
    apply (spending_totals_positive Frame.weekday df k0 v0).
  - exact Htotal.
  - rewrite Htotal. symmetry. apply cumulative_total_spent.
Qed.

(* ================================================================== *)
(** ** Transactions per day *)

Section GroupSizes.
Import Frame Totals.
Context {K : Type} `{Key K}.
Variable key : txn -> option K.

Lemma sizes_other_key (r : txn) (df : list txn) (ks : list K) :
  (forall k, In k ks -> has_key key k r = false) ->
  map (fun k => (k, List.length (filter (has_key key k) (r :: df)))) ks
  = map (fun k => (k, List.length (filter (has_key key k) df))) ks.
Proof.
  intros Hn. apply map_ext_in. intros k Hk. simpl.
  now rewrite (Hn k Hk).
Qed.

Lemma list_sum_cons (n : nat) (l : list nat) :
  list_sum (n :: l) = (n + list_sum l)%nat.
Proof. reflexivity. Qed.

Lemma sizes_add_row (r : txn) (k0 : K) (df : list txn) (ks : list K) :
  key r = Some k0 -> NoDup ks -> In k0 ks ->
  list_sum
    (map snd
       (map (fun k => (k, List.length (filter (has_key key k) (r :: df)))) ks))
  = S (list_sum
         (map snd
            (map (fun k => (k, List.length (filter (has_key key k) df))) ks))).
Proof.
  intros E Hnd Hin. induction Hnd as [|k ks Hnin Hnd IH]; [destruct Hin|].
  cbn [map snd]. rewrite !list_sum_cons.
  assert (Hk : has_key key k r = key_eqb k0 k).
  { unfold has_key. now rewrite E. }
  change (filter (has_key key k) (r :: df))
    with (if has_key key k r then r :: filter (has_key key k) df
          else filter (has_key key k) df).
  rewrite Hk.
  destruct (key_eqb k0 k) eqn:Ek.
  - apply key_eqb_eq in Ek. subst k.
    rewrite (sizes_other_key r df ks); [simpl; lia|].
    intros k Hk'. unfold has_key. rewrite E.
    destruct (key_eqb k0 k) eqn:Ek; [|reflexivity].
    apply key_eqb_eq in Ek. subst k. contradiction.
  - destruct Hin as [-> | Hin].
    + assert (Hr : key_eqb k0 k0 = true) by now apply key_eqb_eq.
      congruence.
    + rewrite (IH Hin). lia.
Qed.

Lemma sizes_total (df : list txn) (ks : list K) :
  NoDup ks ->
  (forall r k, In r df -> key r = Some k -> In k ks) ->
  list_sum
    (map snd (map (fun k => (k, List.length (filter (has_key key k) df))) ks))
  = List.length (filter (keyed key) df).
Proof.
  intros Hnd. induction df as [|r df IH]; intros Hcov.
  - simpl. clear. induction ks as [|k ks IH]; simpl; [reflexivity|exact IH].
  - assert (Hcov' : forall r' k, In r' df -> key r' = Some k -> In k ks).
    { intros r' k Hr'. apply Hcov. now right. }
    specialize (IH Hcov').
    change (filter (keyed key) (r :: df))
      with (if keyed key r then r :: filter (keyed key) df
            else filter (keyed key) df).
    unfold keyed at 1.
    destruct (key r) as [k0|] eqn:E.
    + rewrite (sizes_add_row r k0 df ks E Hnd
                 (Hcov r k0 (or_introl eq_refl) E)).
      rewrite IH. reflexivity.
    + rewrite (sizes_other_key r df ks); [exact IH|].
      intros k _. unfold has_key. now rewrite E.
Qed.

End GroupSizes.

(** X7.  The daily-transactions chart has one bar per date that occurs,
    in strictly increasing date order, and every bar counts at least one
    row.  The bars add up to the number of rows that have a date, so they
    reach the [n] of the chart title, the number of all rows, exactly when
    no row lacks its date. *)
Theorem daily_transaction_counts (df : list Frame.txn) :
  let counts := Scripts.daily_counts df in
  let dated := filter (Totals.keyed Frame.date_only) df in
  StronglySorted Z.lt (map fst counts)
  /\ (forall d n, In (d, n) counts -> (1 <= n)%nat)
  /\ list_sum (map snd counts) = List.length dated
  /\ (list_sum (map snd counts) <= List.length df)%nat
  /\ (list_sum (map snd counts) = List.length df <->
      Forall (fun r => Frame.date r <> None) df).
Proof.
  intros counts dated.
  assert (Hsum : list_sum (map snd counts) = List.length dated).
  { unfold counts, Scripts.daily_counts, Frame.groupby_size.
    apply sizes_total.
    - apply (group_keys_NoDup Z_ltb_irrefl Z_ltb_trans Z_ltb_connex).
    - intros r k Hr Hk. apply group_keys_In_iff.
      rewrite <- Hk. now apply in_map. }
  split; [|split; [|split; [|split]]].
  - unfold counts, Scripts.daily_counts, Frame.groupby_size.
    rewrite map_map. simpl. rewrite map_id.
    apply (sorted_weaken Totals.key_lt);
      [|apply (group_keys_sorted Z_ltb_trans Z_ltb_connex)].
    intros a b Hab. now apply Z.ltb_lt.
  - intros d n Hin. unfold counts, Scripts.daily_counts,
      Frame.groupby_size in Hin.
    apply in_map_iff in Hin. destruct Hin as (k & E & Hk).
    injection E as <- <-.
    apply group_keys_In, in_map_iff in Hk. destruct Hk as (r & Hr & Hin).
    assert (Hf : In r (filter (Frame.has_key Frame.date_only k) df)).
    { apply filter_In. split; [exact Hin|].
      unfold Frame.has_key. rewrite Hr. apply Z.eqb_refl. }
    destruct (filter (Frame.has_key Frame.date_only k) df);
      [destruct Hf | simpl; lia].
  - exact Hsum.
  - rewrite Hsum. apply filter_length_le.
  - rewrite Hsum. unfold dated. clear.
    induction df as [|r df IH]; [split; [constructor | reflexivity]|].
    cbn [filter]. unfold Totals.keyed at 1, Frame.date_only at 1.
    pose proof (filter_length_le (Totals.keyed Frame.date_only) df) as Hle.
    destruct (Frame.date r) as [t|] eqn:E.
    + cbn [List.length]. split.
      * intros Hl. constructor; [rewrite E; discriminate|].
        apply IH. lia.
      * intros Hall. apply Forall_inv_tail in Hall.
        apply IH in Hall. lia.
    + cbn [List.length]. split.
      * intros Hl. lia.
      * intros Hall. apply Forall_inv in Hall. congruence.
Qed.

(* ================================================================== *)
(** ** The pie and its colours *)

(** X8.  With more than eight categories the rest always sums to a
    positive amount, because every category total is positive: the
    ["Other"] wedge is then always added and the pie has exactly nine
    wedges, the eight largest categories followed by ["Other"]. *)
Theorem pie_exactly_nine (df : list Frame.txn) :
  (8 < List.length (Scripts.category_totals false df))%nat ->
  let totals := Scripts.category_totals false df in
  let other := sum (map snd (skipn 8 totals)) in
  gt0 other = true
  /\ Scripts.top_categories df = firstn 8 totals ++ [("Other", other)]
  /\ List.length (Scripts.top_categories df) = 9%nat.
Proof. exact (pie_other_present df). Qed.

Lemma pie_exactly_nine_witness :
  let totals := Scripts.category_totals false Spending.ten_categories in
  let other := sum (map snd (skipn 8 totals)) in
  gt0 other = true
  /\ Scripts.top_categories Spending.ten_categories
     = firstn 8 totals ++ [("Other", other)]
  /\ List.length (Scripts.top_categories Spending.ten_categories) = 9%nat.
Proof.
  apply (pie_exactly_nine Spending.ten_categories).
  vm_compute. lia.
Defined.

(** X9.  Every wedge of the pie gets a colour of its own: the slice of
    the palette handed to [ax.pie] is as long as the pie data.  The last
    palette entry, light gray, is in the slice exactly when there are more
    than eight categories, and it then falls on the ["Other"] wedge. *)
Theorem pie_colors_match (df : list Frame.txn) :
  let pie := Scripts.top_categories df in
  let colors := Shown.pie_colors df in
  List.length colors = List.length pie
  /\ (In "#95a5a6" colors <->
      (8 < List.length (Scripts.category_totals false df))%nat)
  /\ ((8 < List.length (Scripts.category_totals false df))%nat ->
      fst (last pie ("", NaN)) = "Other" /\ last colors "" = "#95a5a6").
Proof.
  intros pie colors.
  assert (Hlen : (List.length pie <= 9)%nat) by apply top_with_other_length.
  split; [|split].
  - unfold colors, Shown.pie_colors. fold pie.
    apply firstn_length_le. exact Hlen.
  - unfold colors, Shown.pie_colors. fold pie. split.
    + intros Hin.
      destruct (Nat.ltb_spec 8 (List.length (Scripts.category_totals false df)))
        as [Hgt | Hle]; [exact Hgt|]. exfalso.
      assert (Hp : pie = Scripts.category_totals false df).
      { unfold pie, Scripts.top_categories. rewrite top_with_other_cases.
        apply Nat.ltb_ge in Hle. now rewrite Hle. }
      rewrite Hp in Hin.
      remember (List.length (Scripts.category_totals false df)) as n.
      clear - Hin Hle.
      do 9 (destruct n as [|n]; [simpl in Hin; intuition discriminate|]).
      lia.
    + intros Hgt. destruct (pie_other_present df Hgt) as (_ & _ & H9).
      fold pie in H9. rewrite H9. simpl. tauto.
  - intros Hgt. destruct (pie_other_present df Hgt) as (_ & Hp & H9).
    fold pie in Hp, H9. split.
    + rewrite Hp. now rewrite last_last.
    + unfold colors, Shown.pie_colors. fold pie. now rewrite H9.
Qed.

(* ================================================================== *)
(** ** Runs of the entry point *)

Section Runs.
Import Frame Proc Run.

Lemma bind_ret {A B : Type} (m : M A) (k : A -> M B) (p p' : process)
    (a : A) :
  m p = (Return a, p') -> bind m k p = k a p'.
Proof. intros E. unfold bind. now rewrite E. Qed.

Lemma bind_exit {A B : Type} (m : M A) (k : A -> M B) (p p' : process)
    (c : Z) :
  m p = (SysExit c, p') -> bind m k p = (SysExit c, p').
Proof. intros E. unfold bind. now rewrite E. Qed.

Lemma bind_raise {A B : Type} (m : M A) (k : A -> M B) (p p' : process)
    (e : exn) :
  m p = (Raise e, p') -> bind m k p = (Raise e, p').
Proof. intros E. unfold bind. now rewrite E. Qed.

Lemma path_exists_run (path : string) (p : process) :
  path_exists path p
  = (Return (mem_string path (dirs p)
             || match lookup_csv path (csvs p) with
                | Some _ => true
                | None => false
                end), p).
Proof. reflexivity. Qed.

Lemma mkdir_existing (parent name : string) (p : process) :
  mem_string parent (dirs p) = true ->
  mem_string (joinpath parent name) (dirs p) = true ->
  mkdir_exist_ok parent name p = (Return tt, p).
Proof. intros H1 H2. unfold mkdir_exist_ok. now rewrite H1, H2. Qed.

Lemma mkdir_new (parent name : string) (p : process) :
  mem_string parent (dirs p) = true ->
  mem_string (joinpath parent name) (dirs p) = false ->
  lookup_csv (joinpath parent name) (csvs p) = None ->
  mkdir_exist_ok parent name p
  = (Return tt,
     {| dirs := dirs p ++ [joinpath parent name]; csvs := csvs p;
        plots := plots p; stdout := stdout p; stderr := stderr p |}).
Proof. intros H1 H2 H3. unfold mkdir_exist_ok. now rewrite H1, H2, H3. Qed.

Lemma date_range_run (df : list txn) (lo hi : timestamp) (p : process) :
  Scripts.date_min df = Some lo -> Scripts.date_max df = Some hi ->
  Scripts.get_date_range_str df p = (Return (lo, hi), p).
Proof.
  intros H1 H2. unfold Scripts.get_date_range_str. now rewrite H1, H2.
Qed.

Ltac effect := erewrite bind_ret by reflexivity; cbv beta.

Ltac tidy := cbn [dirs csvs plots stdout stderr negb fst snd].

Lemma mem_string_app (x : string) (l1 l2 : list string) :
  mem_string x (l1 ++ l2) = mem_string x l1 || mem_string x l2.
Proof. apply existsb_app. Qed.

Lemma joinpath_distinct (d : string) :
  String.eqb (joinpath d "agentic_merged_transactions.csv")
             (joinpath d "assets") = false.
Proof.
  unfold joinpath. induction d as [|c d IH]; [reflexivity|].
  simpl. now rewrite Ascii.eqb_refl.
Qed.

Lemma csv_not_assets (d : string) (ds : list string) :
  mem_string (joinpath d "agentic_merged_transactions.csv")
    (ds ++ [joinpath d "assets"])
  = mem_string (joinpath d "agentic_merged_transactions.csv") ds.
Proof.
  rewrite mem_string_app. simpl. rewrite joinpath_distinct.
  now rewrite !orb_false_r.
Qed.

Lemma load_transactions_missing (p : process) (directory : string) :
  mem_string (csv_of directory) (dirs p) = false ->
  lookup_csv (csv_of directory) (csvs p) = None ->
  Scripts.load_transactions directory p
  = (SysExit 1,
     {| dirs := dirs p; csvs := csvs p; plots := plots p;
        stdout := stdout p;
        stderr := stderr p
                  ++ [("Error: " ++ csv_of directory ++ " not found")%string]
     |}).
Proof.
  intros H1 H2. unfold Scripts.load_transactions, csv_of in *.
  rewrite (bind_ret _ _ _ _ _ (path_exists_run _ _)).
  rewrite H1, H2. reflexivity.
Qed.

Lemma date_range_missing (df : list txn) (p : process) :
  Scripts.date_min df = None ->
  Scripts.get_date_range_str df p = (Raise ValueError, p).
Proof. intros H. unfold Scripts.get_date_range_str. now rewrite H. Qed.

(** Opens [main] up to the load, in both cases of the assets
    directory. *)
Ltac main_start p Hs :=
  let Hd := fresh "Hd" in
  let Ha := fresh "Ha" in
  let Hm := fresh "Hm" in
  destruct Hs as [Hd Ha];
  unfold stopped, with_assets, assets_of, csv_of in *;
  destruct p as [ds cs pl so se]; tidy;
  cbn [dirs csvs] in *;
  unfold Scripts.main;
  rewrite (bind_ret _ _ _ _ _ (path_exists_run _ _)); tidy;
  rewrite Hd; cbn [orb negb]; effect;
  destruct (mem_string (joinpath _ "assets") ds) eqn:Hm;
  [ erewrite bind_ret by (apply mkdir_existing; [exact Hd | exact Hm])
  | destruct Ha as [Ha | Ha]; [discriminate Ha|];
    erewrite bind_ret by (apply mkdir_new; [exact Hd | exact Hm | exact Ha]) ];
  cbv beta; do 2 effect; tidy.

Lemma main_without_file (p : process) (directory : string) :
  started p directory ->
  mem_string (csv_of directory) (dirs p) = false ->
  lookup_csv (csv_of directory) (csvs p) = None ->
  Scripts.main directory p
  = (SysExit 1,
     stopped p directory []
       [("Error: " ++ csv_of directory ++ " not found")%string]).
Proof.
  intros Hs H1 H2. main_start p Hs.
  - erewrite bind_exit
      by (apply load_transactions_missing; [exact H1 | exact H2]).
    tidy. unfold csv_of. now rewrite <- app_assoc.
  - erewrite bind_exit
      by (apply load_transactions_missing;
          [cbn [dirs]; unfold csv_of; rewrite csv_not_assets; exact H1
          | exact H2]).
    tidy. unfold csv_of. now rewrite <- app_assoc.
Qed.

Lemma date_min_none (df : list txn) :
  Scripts.date_min df = None <-> Forall (fun r => date r = None) df.
Proof.
  induction df as [|r df IH]; simpl; [split; [constructor | reflexivity]|].
  destruct (date r) as [t|] eqn:E.
  - split.
    + destruct (Scripts.date_min df); discriminate.
    + intros H. apply Forall_inv in H. congruence.
  - rewrite IH. split; [intros H; now constructor|].
    intros H. now apply Forall_inv_tail in H.
Qed.


Lemma unique_keeps_missing (l : list (option string)) :
  In None l -> In None (Scripts.unique l).
Proof.
  induction l as [|x l IH]; simpl; [tauto|].
  intros [-> | H]; [now left|].
  destruct x as [a|]; [right | now left].
  apply filter_In. split; [now apply IH | reflexivity].
Qed.

Lemma unique_subset (l : list (option string)) (x : option string) :
  In x (Scripts.unique l) -> In x l.
Proof.
  induction l as [|y l IH]; simpl; [tauto|].
  intros [-> | H]; [now left|]. right. apply IH.
  now apply filter_In in H.
Qed.

Lemma all_present_none (l : list (option string)) :
  Scripts.all_present l = None <-> In None l.
Proof.
  induction l as [|[a|] l IH]; simpl.
  - split; [discriminate | tauto].
  - destruct (Scripts.all_present l).
    + split; [discriminate|]. intros [H | H]; [discriminate H|].
      now apply IH in H.
    + split; [|reflexivity]. intros _. right. now apply IH.
  - split; [now left | reflexivity].
Qed.

Lemma account_missing (df : list txn) :
  Scripts.all_present (Scripts.unique (map account_name df)) = None
  <-> Exists (fun r => account_name r = None) df.
Proof.
  rewrite all_present_none, Exists_exists. split.
  - intros H. apply unique_subset, in_map_iff in H.
    destruct H as (r & Hr & Hin). now exists r.
  - intros (r & Hin & Hr). apply unique_keeps_missing.
    rewrite <- Hr. now apply in_map.
Qed.

Lemma main_without_dates (p : process) (directory : string)
    (raw : list raw_row) (df : list txn) :
  started p directory ->
  lookup_csv (csv_of directory) (csvs p) = Some raw ->
  load_frame raw = Some df ->
  Scripts.date_min df = None ->
  Scripts.main directory p
  = (Raise ValueError, stopped p directory [Loaded (List.length df)] []).
Proof.
  intros Hs Hf Hl Hn. main_start p Hs.
  all: erewrite bind_ret
         by (apply load_transactions_returns with raw; [exact Hf | exact Hl]).
  all: cbv beta; effect; tidy.
  all: erewrite bind_raise by (apply date_range_missing; exact Hn).
  all: rewrite ?app_nil_r; repeat rewrite <- app_assoc; reflexivity.
Qed.

Lemma main_without_account (p : process) (directory : string)
    (raw : list raw_row) (df : list txn) (lo hi : timestamp) :
  started p directory ->
  lookup_csv (csv_of directory) (csvs p) = Some raw ->
  load_frame raw = Some df ->
  Scripts.date_min df = Some lo ->
  Scripts.date_max df = Some hi ->
  Scripts.all_present (Scripts.unique (map account_name df)) = None ->
  Scripts.main directory p
  = (Raise TypeError,
     stopped p directory [Loaded (List.length df); DateRange lo hi] []).
Proof.
  intros Hs Hf Hl Hlo Hhi Hn. main_start p Hs.
  all: erewrite bind_ret
         by (apply load_transactions_returns with raw; [exact Hf | exact Hl]).
  all: cbv beta; effect; tidy.
  all: erewrite bind_ret by (apply date_range_run; [exact Hlo | exact Hhi]).
  all: cbv beta; effect; tidy; rewrite Hn.
  all: unfold raise; rewrite ?app_nil_r; repeat rewrite <- app_assoc;
       reflexivity.
Qed.

End Runs.

(** X13.  In an existing directory without the ledger file, [main] has
    already made the assets directory and printed its two opening lines
    when [load_transactions] writes [Error: <file> not found] to stderr and
    exits with status 1; no chart is written. *)
Theorem missing_file_exits_after_mkdir (p : Proc.process)
    (directory : string) :
  Run.started p directory ->
  Proc.mem_string (Run.csv_of directory) (Proc.dirs p) = false ->
  Proc.lookup_csv (Run.csv_of directory) (Proc.csvs p) = None ->
  Scripts.main directory p
  = (Proc.SysExit 1,
     Run.stopped p directory []
       [("Error: " ++ Run.csv_of directory ++ " not found")%string]).
Proof. apply main_without_file. Qed.

Lemma missing_file_exits_after_mkdir_witness :
  Scripts.main "/data/jan" (Scripts.start ["/data/jan"] [])
  = (Proc.SysExit 1,
     Run.stopped (Scripts.start ["/data/jan"] []) "/data/jan" []
       ["Error: /data/jan/agentic_merged_transactions.csv not found"]).
Proof.
  apply (missing_file_exits_after_mkdir (Scripts.start ["/data/jan"] [])
           "/data/jan").
  - split; [reflexivity | now right].
  - reflexivity.
  - reflexivity.
Defined.

(** X14.  A ledger file in which no row has a date - in particular a file
    with a header and no rows - makes [main] fail: after the line with the
    number of loaded rows, formatting the date range raises [ValueError],
    and no chart is written. *)
Theorem undated_ledger_raises (p : Proc.process) (directory : string)
    (raw : list Frame.raw_row) (df : list Frame.txn) :
  Run.started p directory ->
  Proc.lookup_csv (Run.csv_of directory) (Proc.csvs p) = Some raw ->
  Frame.load_frame raw = Some df ->
  Forall (fun r => Frame.date r = None) df ->
  Scripts.main directory p
  = (Proc.Raise Proc.ValueError,
     Run.stopped p directory [Proc.Loaded (List.length df)] []).
Proof.
  intros Hs Hf Hl Hall.
  apply (main_without_dates p directory raw df Hs Hf Hl).
  now apply date_min_none.
Qed.

Lemma undated_ledger_raises_witness :
  Scripts.main "/data/jan" (Cells.tree_with [])
  = (Proc.Raise Proc.ValueError,
     Run.stopped (Cells.tree_with []) "/data/jan" [Proc.Loaded 0] []).
Proof.
  apply (undated_ledger_raises (Cells.tree_with []) "/data/jan" [] []).
  - split; [reflexivity | now right].
  - reflexivity.
  - reflexivity.
  - constructor.
Defined.

(** X15.  A row without an account name makes [main] fail once the frame
    is loaded and has a date: joining the account names raises
    [TypeError] after the date-range line, before any chart is written. *)
Theorem missing_account_raises (p : Proc.process) (directory : string)
    (raw : list Frame.raw_row) (df : list Frame.txn)
    (lo hi : Frame.timestamp) :
  Run.started p directory ->
  Proc.lookup_csv (Run.csv_of directory) (Proc.csvs p) = Some raw ->
  Frame.load_frame raw = Some df ->
  Scripts.date_min df = Some lo ->
  Scripts.date_max df = Some hi ->
  Exists (fun r => Frame.account_name r = None) df ->
  Scripts.main directory p
  = (Proc.Raise Proc.TypeError,
     Run.stopped p directory
       [Proc.Loaded (List.length df); Proc.DateRange lo hi] []).
Proof.
  intros Hs Hf Hl Hlo Hhi Hex.
  apply (main_without_account p directory raw df lo hi Hs Hf Hl Hlo Hhi).
  now apply account_missing.
Qed.

Lemma missing_account_raises_witness :
  Scripts.main "/data/jan" (Cells.tree_with Samples.anonymous_raw)
  = (Proc.Raise Proc.TypeError,
     Run.stopped (Cells.tree_with Samples.anonymous_raw) "/data/jan"
       [Proc.Loaded 1; Proc.DateRange Samples.new_year Samples.new_year] []).
Proof.
  apply (missing_account_raises (Cells.tree_with Samples.anonymous_raw)
           "/data/jan" Samples.anonymous_raw Samples.anonymous
           Samples.new_year Samples.new_year).
  - split; [reflexivity | now right].
  - reflexivity.
  - reflexivity.
  - reflexivity.
  - reflexivity.
  - constructor. reflexivity.
Defined.

(* ================================================================== *)
(** ** The two scripts side by side *)

Lemma tail_tail {A : Type} (m n : nat) (l : list A) :
  (m <= n)%nat -> tail m (tail n l) = tail m l.
Proof.
  intros Hmn. unfold tail. rewrite skipn_skipn, length_skipn.
  f_equal. lia.
Qed.

(** X18.  The module-level script computes the same category totals, pie
    data, daily spending and weekday bars as the functions of
    [scripts/generate_graphs.py]; its merchant chart shows the last ten
    entries of the fifteen that the other script shows. *)
Theorem scripts_agree (df : list Frame.txn) :
  MockDataset.category_totals df = Scripts.category_totals false df
  /\ MockDataset.top_categories df = Scripts.top_categories df
  /\ MockDataset.daily_spending df = Scripts.daily_spending df
  /\ MockDataset.weekday_totals df = Scripts.weekday_totals df
  /\ MockDataset.top_merchants df = tail 10 (Scripts.top_merchants df)
  /\ (List.length (MockDataset.top_merchants df) <= 10)%nat.
Proof.
  repeat split.
  - unfold MockDataset.top_merchants, Scripts.top_merchants.
    symmetry. apply tail_tail. lia.
  - unfold MockDataset.top_merchants, tail. rewrite length_skipn. lia.
Qed.

(* ================================================================== *)
(** ** The date range of the titles *)

Section DateRange.
Import Frame.







End DateRange.



(* ================================================================== *)
(** ** Category spending over time *)

Section PivotFacts.
Import Frame Totals Pivot.





End PivotFacts.

